(** * The process-isolated Flower ClientApp driver

    A shallow embedding of [src/py/flwr/client/clientapp/app.py]:
    [run_clientapp] with its helpers [get_token], [pull_message] and
    [push_message].  The driver talks to the SuperNode through three remote
    calls, runs the loaded [ClientApp] inside a [try]/[except Exception]
    block and closes the gRPC channel in a [finally] clause.

    The Python code is effectful: it performs remote calls, writes log
    lines, raises and catches exceptions and may loop forever while it polls
    for a token.  The embedding is a small monad with a trace of the
    observable events, Python exceptions as values, and fuel for the one
    unbounded loop.

    Exceptions enter where the driver hands control to a collaborator: the
    three remote calls, the loader and the callback, each of which returns
    or raises.  The first set of definitions takes [str(ex)], the
    conversions of [flwr.common.serde], and creating, subscribing to and
    closing the channel not to raise; the primed definitions after them
    are the same functions with these calls able to raise as well, and
    agree with the first set when they all return.  Logging does not
    raise.  An interrupt is modelled where a call raises it; the
    connectivity callbacks, which the channel runs on a thread of its own,
    are outside the trace of the driver. *)

From Stdlib Require Import List String Ascii ZArith Bool Arith Lia.
From Stdlib Require Import DecimalString.
Import ListNotations.
Open Scope string_scope.

(** ** Python exceptions *)

Module Py.

(** The exception classes the driver can tell apart, with a few built-in
    ones for examples.  [RpcError] is [grpc.RpcError] and
    [LoadClientAppError] is [flwr.client.client_app.LoadClientAppError];
    their class statements are outside the sources, and both derive from
    [Exception] as user-defined exceptions do. *)
Inductive Builtin : Type :=
| BaseException
| Exception
| KeyboardInterrupt
| SystemExit
| ArithmeticError
| ZeroDivisionError
| OSError
| FileNotFoundError
| ValueError
| RpcError
| LoadClientAppError.

Definition Builtin_eqb (a b : Builtin) : bool :=
  match a, b with
  | BaseException, BaseException
  | Exception, Exception
  | KeyboardInterrupt, KeyboardInterrupt
  | SystemExit, SystemExit
  | ArithmeticError, ArithmeticError
  | ZeroDivisionError, ZeroDivisionError
  | OSError, OSError
  | FileNotFoundError, FileNotFoundError
  | ValueError, ValueError
  | RpcError, RpcError
  | LoadClientAppError, LoadClientAppError => true
  | _, _ => false
  end.

(** [__qualname__] with the module prefix that [str(type)] prints. *)
Definition builtin_name (b : Builtin) : string :=
  match b with
  | BaseException => "BaseException"
  | Exception => "Exception"
  | KeyboardInterrupt => "KeyboardInterrupt"
  | SystemExit => "SystemExit"
  | ArithmeticError => "ArithmeticError"
  | ZeroDivisionError => "ZeroDivisionError"
  | OSError => "OSError"
  | FileNotFoundError => "FileNotFoundError"
  | ValueError => "ValueError"
  | RpcError => "grpc.RpcError"
  | LoadClientAppError => "flwr.client.client_app.LoadClientAppError"
  end.

(** The method resolution order of each known class. *)
Definition builtin_mro (b : Builtin) : list Builtin :=
  match b with
  | BaseException => [BaseException]
  | Exception => [Exception; BaseException]
  | KeyboardInterrupt => [KeyboardInterrupt; BaseException]
  | SystemExit => [SystemExit; BaseException]
  | ArithmeticError => [ArithmeticError; Exception; BaseException]
  | ZeroDivisionError =>
      [ZeroDivisionError; ArithmeticError; Exception; BaseException]
  | OSError => [OSError; Exception; BaseException]
  | FileNotFoundError => [FileNotFoundError; OSError; Exception; BaseException]
  | ValueError => [ValueError; Exception; BaseException]
  | RpcError => [RpcError; Exception; BaseException]
  | LoadClientAppError => [LoadClientAppError; Exception; BaseException]
  end.

(** A class is a known one or a class statement [class qualname(bases)]. *)
#[local] Unset Elimination Schemes.
Inductive PyClass : Type :=
| Known (b : Builtin)
| Derived (qualname : string) (bases : list PyClass).
#[local] Set Elimination Schemes.

Fixpoint PyClass_ind (P : PyClass -> Prop)
    (HKnown : forall b, P (Known b))
    (HDerived : forall qualname bases,
        Forall P bases -> P (Derived qualname bases))
    (c : PyClass) : P c :=
  match c with
  | Known b => HKnown b
  | Derived qualname bases =>
      HDerived qualname bases
        ((fix all (l : list PyClass) : Forall P l :=
            match l with
            | [] => Forall_nil P
            | x :: l' =>
                Forall_cons x (PyClass_ind P HKnown HDerived x) (all l')
            end) bases)
  end.

(** The known classes among the ancestors of a class (itself included);
    enough to decide every [except] clause and [isinstance] test of the
    driver, which only name known classes. *)
Fixpoint ancestors (c : PyClass) : list Builtin :=
  match c with
  | Known b => builtin_mro b
  | Derived _ bases => flat_map ancestors bases
  end.

Definition issubclass (c : PyClass) (b : Builtin) : bool :=
  existsb (Builtin_eqb b) (ancestors c).

Definition class_name (c : PyClass) : string :=
  match c with
  | Known b => builtin_name b
  | Derived qualname _ => qualname
  end.

(** An exception instance: its class and the text [str(ex)] returns.  For
    an exception built with one string argument, [T(m)], that text is [m]. *)
Record Exc : Type := mkExc { exc_class : PyClass; exc_str : string }.

Definition isinstance (ex : Exc) (b : Builtin) : bool :=
  issubclass (exc_class ex) b.

(** [str(type(ex))] *)
Definition str_type (ex : Exc) : string :=
  "<class '" ++ class_name (exc_class ex) ++ "'>".

(** [str(ex)] *)
Definition str (ex : Exc) : string := exc_str ex.

End Py.

Import Py.

(** ** Data model *)

(** [flwr.common.constant.ErrorCode], the two members the driver uses. *)
Inductive ErrorCode : Type :=
| LOAD_CLIENT_APP_EXCEPTION
| CLIENT_APP_RAISED_EXCEPTION.

(** [flwr.common.message.Error] *)
Record Error : Type := mkError { code : ErrorCode; reason : string }.

(** [logging] levels imported by the module. *)
Inductive LogLevel : Type := DEBUG | ERROR | INFO.

(** [flwr.common.typing.Run]: the two fields the driver reads. *)
Record Run : Type := mkRun { fab_id : string; fab_version : string }.

(** [argparse.Namespace] as [parser.parse_args()] of [flwr_clientapp]
    returns it.  [--supernode] is declared with [type=str] and handed to
    [run_clientapp(supernode: str, ...)]; the model covers command lines
    that give it.  [--token] has [type=int] and is [None] when absent. *)
Record Namespace : Type := mkNamespace {
  args_supernode : string;
  args_token : option Z
}.

(** ["%s" % n] for an [int]: its decimal digits, with a minus sign when
    negative. *)
Definition str_int (n : Z) : string := NilZero.string_of_int (Z.to_int n).

(** ["%s" % token] for an [Optional[int]]. *)
Definition str_token (token : option Z) : string :=
  match token with
  | Some t => str_int t
  | None => "None"
  end.

(** What a call of a collaborator does: it returns a value or raises. *)
Inductive Result (A : Type) : Type :=
| Returned (a : A)
| Raised (ex : Exc).
Arguments Returned {A} a.
Arguments Raised {A} ex.

(** What a computation of the driver does: it returns, raises, or is cut
    off because the fuel of the polling loop ran out. *)
Inductive Outcome (A : Type) : Type :=
| Returns (a : A)
| Raises (ex : Exc)
| Diverges.
Arguments Returns {A} a.
Arguments Raises {A} ex.
Arguments Diverges {A}.

Section ClientAppProcess.

(** The payload types are opaque to the driver: it only moves them. *)
Variables Metadata RecordSet Context : Type.

(** [flwr.common.Message]: routing metadata with either content or an
    error. *)
Record Message : Type := mkMessage {
  metadata : Metadata;
  content : option RecordSet;
  error : option Error
}.

(** Modelled from the spec: [Message.create_error_reply] of
    [flwr.common.message], which is not part of the sources.  The reply
    preserves the routing metadata of the original message and has the
    error report attached instead of content. *)
Definition create_error_reply (message : Message) (err : Error) : Message :=
  {| metadata := metadata message; content := None; error := Some err |}.

(** The wire types of [flwr.proto] and the conversions of
    [flwr.common.serde]; both are outside the sources and are parameters. *)
Variables ProtoMessage ProtoContext ProtoRun : Type.
Variable message_from_proto : ProtoMessage -> Message.
Variable context_from_proto : ProtoContext -> Context.
Variable run_from_proto : ProtoRun -> Run.
Variable message_to_proto : Message -> ProtoMessage.
Variable context_to_proto : Context -> ProtoContext.

(** Requests and responses of [flwr.proto.clientappio_pb2]. *)
Record GetTokenResponse : Type := mkGetTokenResponse {
  res_token : option Z
}.

Record PullClientAppInputsRequest : Type := mkPullRequest {
  pull_token : Z
}.

Record PullClientAppInputsResponse : Type := mkPullResponse {
  res_message : ProtoMessage;
  res_context : ProtoContext;
  res_run : ProtoRun
}.

Record PushClientAppOutputsRequest : Type := mkPushRequest {
  push_token : Z;
  push_message_proto : ProtoMessage;
  push_context_proto : ProtoContext
}.

Inductive PushClientAppOutputsResponse : Type := Ack.

(** [ClientAppIoStub]: the SuperNode seen through the channel.  The answer
    to [GetToken] may change from one call to the next, so it is indexed by
    the number of earlier [GetToken] calls.  [PullClientAppInputs] and
    [PushClientAppOutputs] are called at most once in a run. *)
Record ClientAppIoStub : Type := mkStub {
  GetToken : nat -> Result GetTokenResponse;
  PullClientAppInputs :
    PullClientAppInputsRequest -> Result PullClientAppInputsResponse;
  PushClientAppOutputs :
    PushClientAppOutputsRequest -> Result PushClientAppOutputsResponse
}.

(** A call [client_app(message=message, context=context)].  [Message] and
    [Context] are mutable Python objects handed over by reference: besides
    returning or raising, the call leaves both objects in a state the
    caller sees afterwards. *)
Record Invocation : Type := mkInvocation {
  outcome : Result Message;
  message_after : Message;
  context_after : Context
}.

Definition ClientApp : Type := Message -> Context -> Invocation.

(** The function [get_load_client_app_fn(...)] returns: it maps
    [fab_id] and [fab_version] to a [ClientApp] or raises. *)
Definition LoadClientAppFn : Type := string -> string -> Result ClientApp.

(** The collaborators of one process: the servicer behind an address and
    [get_load_client_app_fn] of [.utils]
    (arguments [default_app_ref], [app_path], [multi_app], [flwr_dir]). *)
Record Env : Type := mkEnv {
  servicer : string -> ClientAppIoStub;
  get_load_client_app_fn :
    string -> option string -> bool -> option string -> LoadClientAppFn
}.

(** ** Observable events *)

Inductive Event : Type :=
| CreateChannel (server_address : string) (insecure : bool)
| Subscribe
| Log (level : LogLevel) (text : string)
| CallGetToken
| CallPullClientAppInputs (req : PullClientAppInputsRequest)
| CallPushClientAppOutputs (req : PushClientAppOutputsRequest)
| ChannelClose.

(** ** The monad of the driver

    A computation starts from the events so far and the number of
    [GetToken] calls so far and ends in an [Outcome]. *)

Record State : Type := mkState {
  trace : list Event;
  get_token_calls : nat
}.

Definition initial : State := {| trace := []; get_token_calls := 0 |}.

Definition M (A : Type) : Type := State -> Outcome A * State.

Definition ret {A} (a : A) : M A := fun st => (Returns a, st).

Definition bind {A B} (m : M A) (k : A -> M B) : M B :=
  fun st =>
    match m st with
    | (Returns a, st') => k a st'
    | (Raises ex, st') => (Raises ex, st')
    | (Diverges, st') => (Diverges, st')
    end.

Definition raise {A} (ex : Exc) : M A := fun st => (Raises ex, st).

Definition diverge {A} : M A := fun st => (Diverges, st).

Definition emit (e : Event) : M unit :=
  fun st =>
    (Returns tt,
     {| trace := trace st ++ [e]; get_token_calls := get_token_calls st |}).

(** The value or the exception of a finished call enters the monad. *)
Definition lift {A} (r : Result A) : M A :=
  match r with
  | Returned a => ret a
  | Raised ex => raise ex
  end.

(** [try: body except ...:] where [handlers ex] is the body of the first
    clause that matches [ex], if one does. *)
Definition try_except {A} (body : M A) (handlers : Exc -> option (M A))
  : M A :=
  fun st =>
    match body st with
    | (Raises ex, st') =>
        match handlers ex with
        | Some handler => handler st'
        | None => (Raises ex, st')
        end
    | other => other
    end.

(** [try: body finally: cleanup].  The clause runs when the body is left,
    by a return or by an exception, and the outcome of the body stands
    unless the clause itself raises. *)
Definition try_finally {A} (body : M A) (cleanup : M unit) : M A :=
  fun st =>
    match body st with
    | (Diverges, st') => (Diverges, st')
    | (o, st') =>
        match cleanup st' with
        | (Returns _, st'') => (o, st'')
        | (Raises ex, st'') => (Raises ex, st'')
        | (Diverges, st'') => (Diverges, st'')
        end
    end.

Notation "x <- m ;; k" := (bind m (fun x => k))
  (at level 61, m at next level, right associativity).
Notation "' p <- m ;; k" := (bind m (fun x => match x with p => k end))
  (at level 61, p pattern, m at next level, right associativity).
Notation "m ;;; k" := (bind m (fun _ => k))
  (at level 61, right associativity).

(** [flwr.common.logger.log], with the message already formatted; the
    traceback that [exc_info] adds is left out. *)
Definition log (level : LogLevel) (text : string) : M unit :=
  emit (Log level text).

(** ** The remote calls *)

(** [stub.GetToken(GetTokenRequest())] *)
Definition stub_GetToken (stub : ClientAppIoStub) : M GetTokenResponse :=
  fun st =>
    let n := get_token_calls st in
    lift (GetToken stub n)
      {| trace := trace st ++ [CallGetToken]; get_token_calls := S n |}.

(** [stub.PullClientAppInputs(req)] *)
Definition stub_PullClientAppInputs (stub : ClientAppIoStub)
    (req : PullClientAppInputsRequest) : M PullClientAppInputsResponse :=
  emit (CallPullClientAppInputs req) ;;;
  lift (PullClientAppInputs stub req).

(** [stub.PushClientAppOutputs(req)] *)
Definition stub_PushClientAppOutputs (stub : ClientAppIoStub)
    (req : PushClientAppOutputsRequest) : M PushClientAppOutputsResponse :=
  emit (CallPushClientAppOutputs req) ;;;
  lift (PushClientAppOutputs stub req).

(** ** The functions of [app.py] *)

(** [on_channel_state_change]: logs the connectivity of the channel.  The
    channel calls it from its own thread; the driver never does. *)
Definition on_channel_state_change (channel_connectivity : string) : M unit :=
  log DEBUG channel_connectivity.

(** [get_token] *)
Definition get_token (stub : ClientAppIoStub) : M (option Z) :=
  log DEBUG "Flower ClientApp process requests token" ;;;
  res <- stub_GetToken stub ;;
  ret (res_token res).

(** [pull_message] *)
Definition pull_message (stub : ClientAppIoStub) (token : Z)
  : M (Message * Context * Run) :=
  res <- stub_PullClientAppInputs stub {| pull_token := token |} ;;
  let message := message_from_proto (res_message res) in
  let context := context_from_proto (res_context res) in
  let run := run_from_proto (res_run res) in
  ret (message, context, run).

(** [push_message] *)
Definition push_message (stub : ClientAppIoStub) (token : Z)
    (message : Message) (context : Context) : M PushClientAppOutputsResponse :=
  let proto_message := message_to_proto message in
  let proto_context := context_to_proto context in
  res <- stub_PushClientAppOutputs stub
           {| push_token := token;
              push_message_proto := proto_message;
              push_context_proto := proto_context |} ;;
  ret res.

(** [while token is None: token = get_token(stub)] (lines 109-110).  The
    Python loop has no bound; [fuel] bounds the number of iterations the
    model follows. *)
Fixpoint while_token_is_None (fuel : nat) (stub : ClientAppIoStub)
    (token : option Z) : M Z :=
  match token with
  | Some t => ret t
  | None =>
      match fuel with
      | O => diverge
      | S fuel' =>
          token' <- get_token stub ;;
          while_token_is_None fuel' stub token'
      end
  end.

(** The body of the inner [try] (lines 123-127): load the [ClientApp],
    then call it.  The loader receives neither object, so a failed load
    leaves [message] and [context] as they were. *)
Definition load_and_execute (load_client_app_fn : LoadClientAppFn)
    (run : Run) (message : Message) (context : Context) : Invocation :=
  match load_client_app_fn (fab_id run) (fab_version run) with
  | Returned client_app => client_app message context
  | Raised ex =>
      {| outcome := Raised ex;
         message_after := message;
         context_after := context |}
  end.

(** The reason and the code the [except Exception as ex] clause computes
    (lines 131-137). *)
Definition error_of_exception (ex : Exc) : Error :=
  let e_code := CLIENT_APP_RAISED_EXCEPTION in
  let reason := str_type ex ++ ":<'" ++ str ex ++ "'>" in
  if isinstance ex LoadClientAppError then
    let reason :=
      "An exception was raised when attempting to load `ClientApp`" in
    let e_code := LOAD_CLIENT_APP_EXCEPTION in
    {| code := e_code; reason := reason |}
  else {| code := e_code; reason := reason |}.

(** The inner [try]/[except Exception] block (lines 122-144): it yields
    [reply_message] and the [context] object as the block leaves it. *)
Definition callback_executor (load_client_app_fn : LoadClientAppFn)
    (run : Run) (message : Message) (context : Context)
  : M (Message * Context) :=
  let attempt := load_and_execute load_client_app_fn run message context in
  let message := message_after attempt in
  let context := context_after attempt in
  match outcome attempt with
  | Returned reply_message => ret (reply_message, context)
  | Raised ex =>
      if isinstance ex Exception then
        let exc_entity := "ClientApp" in
        log ERROR (exc_entity ++ " raised an exception") ;;;
        let reply_message :=
          create_error_reply message (error_of_exception ex) in
        ret (reply_message, context)
      else raise ex
  end.

(** [grpc.Channel] as [create_channel] returns it. *)
Record Channel : Type := mkChannel {
  server_address : string;
  insecure : bool
}.

Definition create_channel (server_address : string) (insecure : bool)
  : M Channel :=
  emit (CreateChannel server_address insecure) ;;;
  ret {| server_address := server_address; insecure := insecure |}.

(** [channel.subscribe(callback)]: registers the callback; the driver
    itself only sees that the subscription was made. *)
Definition channel_subscribe (channel : Channel)
    (callback : string -> M unit) : M unit :=
  emit Subscribe.

Definition channel_close (channel : Channel) : M unit := emit ChannelClose.

(** [ClientAppIoStub(channel)]: the servicer at the other end. *)
Definition connect (env : Env) (channel : Channel) : ClientAppIoStub :=
  servicer env (server_address channel).

(** The outer [try] once [token] is set (lines 112-147): pull, run the
    callback, push. *)
Definition run_clientapp_with_token (env : Env) (stub : ClientAppIoStub)
    (token : Z) : M unit :=
  ' (message, context, run) <- pull_message stub token ;;
  let load_client_app_fn := get_load_client_app_fn env "" None true None in
  ' (reply_message, context) <-
      callback_executor load_client_app_fn run message context ;;
  push_message stub token reply_message context ;;;
  ret tt.

(** The body of the outer [try] (lines 106-147). *)
Definition run_clientapp_try (env : Env) (fuel : nat) (channel : Channel)
    (token : option Z) : M unit :=
  let stub := connect env channel in
  token <- while_token_is_None fuel stub token ;;
  run_clientapp_with_token env stub token.

(** The [except] clauses of the outer [try] (lines 149-152), in order. *)
Definition run_clientapp_except (ex : Exc) : option (M unit) :=
  if isinstance ex KeyboardInterrupt then
    Some (log INFO "Closing connection")
  else if isinstance ex RpcError then
    Some (log ERROR ("GRPC error occurred: " ++ str ex))
  else None.

(** [run_clientapp] *)
Definition run_clientapp (env : Env) (fuel : nat) (supernode : string)
    (token : option Z) : M unit :=
  channel <- create_channel supernode true ;;
  channel_subscribe channel on_channel_state_change ;;;
  try_finally
    (try_except (run_clientapp_try env fuel channel token)
       run_clientapp_except)
    (channel_close channel).

(** A whole process: the outcome of [run_clientapp] and its events. *)
Definition process (env : Env) (fuel : nat) (supernode : string)
    (token : option Z) : Outcome unit * list Event :=
  let (o, st) := run_clientapp env fuel supernode token initial in
  (o, trace st).

(** How the body of the outer [try] ends in that process, and the state it
    is left in.  A run whose body returns went through every step; a run
    whose body raises is aborted. *)
Definition tried (env : Env) (fuel : nat) (supernode : string)
    (token : option Z) : Outcome unit * State :=
  run_clientapp_try env fuel (mkChannel supernode true) token
    {| trace := [CreateChannel supernode true; Subscribe];
       get_token_calls := 0 |}.

(** [flwr_clientapp] (lines 52-78).  [parse_args] is what
    [parser.parse_args()] does on the command line of the process: it
    returns the namespace, or raises ([argparse] leaves through
    [SystemExit] on a bad command line and on [--help]). *)
Definition flwr_clientapp (env : Env) (fuel : nat)
    (parse_args : Result Namespace) : M unit :=
  log INFO "Starting Flower ClientApp" ;;;
  args <- lift parse_args ;;
  log DEBUG
    ("Staring isolated `ClientApp` connected to SuperNode ClientAppIo at "
       ++ args_supernode args ++ " with the token "
       ++ str_token (args_token args)) ;;;
  run_clientapp env fuel (args_supernode args) (args_token args).

(** A whole process started from the command line. *)
Definition command (env : Env) (fuel : nat) (parse_args : Result Namespace)
  : Outcome unit * list Event :=
  let (o, st) := flwr_clientapp env fuel parse_args initial in
  (o, trace st).

(** A computation that does not look at the events before it: started
    after some events, it does what it does started after none and leaves
    its own events behind them. *)
Definition frames {A} (m : M A) : Prop :=
  forall st : State,
    m st =
    (fst (m {| trace := []; get_token_calls := get_token_calls st |}),
     {| trace :=
          trace st ++
          trace (snd (m {| trace := [];
                           get_token_calls := get_token_calls st |}));
        get_token_calls :=
          get_token_calls
            (snd (m {| trace := [];
                       get_token_calls := get_token_calls st |})) |}).

(** ** The driver with helpers that may raise

    The definitions above take [str(ex)], the conversions of
    [flwr.common.serde] and the operations on the channel as calls that
    always return.  In Python each of them may raise: [str(ex)] runs the
    [__str__] of the exception, inside the [except] clauses (lines 133 and
    152); the conversions run in [pull_message] and [push_message], outside
    the inner [try]; [create_channel] and [channel.subscribe] run before
    the outer [try] and [channel.close()] in its [finally] clause.  The
    primed definitions are the same functions with these calls as
    collaborators that return or raise. *)

Record World : Type := mkWorld {
  world_env : Env;
  (** [str(ex)] *)
  str' : Exc -> Result string;
  (** [flwr.common.serde] *)
  message_from_proto' : ProtoMessage -> Result Message;
  context_from_proto' : ProtoContext -> Result Context;
  run_from_proto' : ProtoRun -> Result Run;
  message_to_proto' : Message -> Result ProtoMessage;
  context_to_proto' : Context -> Result ProtoContext;
  (** [create_channel(server_address, insecure)], [channel.subscribe(...)]
      and [channel.close()] *)
  create_channel_outcome : string -> bool -> Result unit;
  subscribe_outcome : Result unit;
  close_outcome : Result unit
}.

(** The world in which the helpers always return: [str(ex)] is the text
    of the exception and the conversions are the total ones. *)
Definition plain_world (env : Env) : World :=
  {| world_env := env;
     str' := fun ex => Returned (str ex);
     message_from_proto' := fun m => Returned (message_from_proto m);
     context_from_proto' := fun c => Returned (context_from_proto c);
     run_from_proto' := fun r => Returned (run_from_proto r);
     message_to_proto' := fun m => Returned (message_to_proto m);
     context_to_proto' := fun c => Returned (context_to_proto c);
     create_channel_outcome := fun _ _ => Returned tt;
     subscribe_outcome := Returned tt;
     close_outcome := Returned tt |}.

(** [pull_message] (lines 164-172), the three conversions in order. *)
Definition pull_message' (w : World) (stub : ClientAppIoStub) (token : Z)
  : M (Message * Context * Run) :=
  res <- stub_PullClientAppInputs stub {| pull_token := token |} ;;
  message <- lift (message_from_proto' w (res_message res)) ;;
  context <- lift (context_from_proto' w (res_context res)) ;;
  run <- lift (run_from_proto' w (res_run res)) ;;
  ret (message, context, run).

(** [push_message] (lines 175-186): both conversions come before the
    remote call. *)
Definition push_message' (w : World) (stub : ClientAppIoStub) (token : Z)
    (message : Message) (context : Context) : M PushClientAppOutputsResponse :=
  proto_message <- lift (message_to_proto' w message) ;;
  proto_context <- lift (context_to_proto' w context) ;;
  res <- stub_PushClientAppOutputs stub
           {| push_token := token;
              push_message_proto := proto_message;
              push_context_proto := proto_context |} ;;
  ret res.

(** The reason and the code of lines 131-137, given the text [str(ex)]
    returned. *)
Definition error_of_exception' (ex : Exc) (text : string) : Error :=
  let e_code := CLIENT_APP_RAISED_EXCEPTION in
  let reason := str_type ex ++ ":<'" ++ text ++ "'>" in
  if isinstance ex LoadClientAppError then
    let reason :=
      "An exception was raised when attempting to load `ClientApp`" in
    let e_code := LOAD_CLIENT_APP_EXCEPTION in
    {| code := e_code; reason := reason |}
  else {| code := e_code; reason := reason |}.

(** The inner [try]/[except Exception] block (lines 122-144).  Line 133
    calls [str(ex)] for every caught exception, before the [isinstance]
    test; what it raises is raised inside the [except] clause and so
    leaves the block. *)
Definition callback_executor' (w : World)
    (load_client_app_fn : LoadClientAppFn)
    (run : Run) (message : Message) (context : Context)
  : M (Message * Context) :=
  let attempt := load_and_execute load_client_app_fn run message context in
  let message := message_after attempt in
  let context := context_after attempt in
  match outcome attempt with
  | Returned reply_message => ret (reply_message, context)
  | Raised ex =>
      if isinstance ex Exception then
        text <- lift (str' w ex) ;;
        let exc_entity := "ClientApp" in
        log ERROR (exc_entity ++ " raised an exception") ;;;
        let reply_message :=
          create_error_reply message (error_of_exception' ex text) in
        ret (reply_message, context)
      else raise ex
  end.

Definition create_channel' (w : World) (server_address : string)
    (insecure : bool) : M Channel :=
  emit (CreateChannel server_address insecure) ;;;
  lift (create_channel_outcome w server_address insecure) ;;;
  ret {| server_address := server_address; insecure := insecure |}.

Definition channel_subscribe' (w : World) (channel : Channel)
    (callback : string -> M unit) : M unit :=
  emit Subscribe ;;;
  lift (subscribe_outcome w).

Definition channel_close' (w : World) (channel : Channel) : M unit :=
  emit ChannelClose ;;;
  lift (close_outcome w).

(** Lines 112-147. *)
Definition run_clientapp_with_token' (w : World) (stub : ClientAppIoStub)
    (token : Z) : M unit :=
  ' (message, context, run) <- pull_message' w stub token ;;
  let load_client_app_fn :=
    get_load_client_app_fn (world_env w) "" None true None in
  ' (reply_message, context) <-
      callback_executor' w load_client_app_fn run message context ;;
  push_message' w stub token reply_message context ;;;
  ret tt.

(** Lines 106-147. *)
Definition run_clientapp_try' (w : World) (fuel : nat) (channel : Channel)
    (token : option Z) : M unit :=
  let stub := connect (world_env w) channel in
  token <- while_token_is_None fuel stub token ;;
  run_clientapp_with_token' w stub token.

(** Lines 149-152: the second clause calls [str(e)] before it logs. *)
Definition run_clientapp_except' (w : World) (ex : Exc) : option (M unit) :=
  if isinstance ex KeyboardInterrupt then
    Some (log INFO "Closing connection")
  else if isinstance ex RpcError then
    Some (text <- lift (str' w ex) ;;
          log ERROR ("GRPC error occurred: " ++ text))
  else None.

(** [run_clientapp] (lines 86-154). *)
Definition run_clientapp' (w : World) (fuel : nat) (supernode : string)
    (token : option Z) : M unit :=
  channel <- create_channel' w supernode true ;;
  channel_subscribe' w channel on_channel_state_change ;;;
  try_finally
    (try_except (run_clientapp_try' w fuel channel token)
       (run_clientapp_except' w))
    (channel_close' w channel).

Definition process' (w : World) (fuel : nat) (supernode : string)
    (token : option Z) : Outcome unit * list Event :=
  let (o, st) := run_clientapp' w fuel supernode token initial in
  (o, trace st).

(** The body of the outer [try] in a process whose channel was created
    and subscribed to. *)
Definition tried' (w : World) (fuel : nat) (supernode : string)
    (token : option Z) : Outcome unit * State :=
  run_clientapp_try' w fuel (mkChannel supernode true) token
    {| trace := [CreateChannel supernode true; Subscribe];
       get_token_calls := 0 |}.

(** ** Reading a trace *)

(** The requests of the [PullClientAppInputs] calls of a trace, in order. *)
Definition pulls (events : list Event) : list PullClientAppInputsRequest :=
  flat_map
    (fun e => match e with CallPullClientAppInputs req => [req] | _ => [] end)
    events.

(** The requests of the [PushClientAppOutputs] calls of a trace, in order. *)
Definition pushes (events : list Event) : list PushClientAppOutputsRequest :=
  flat_map
    (fun e => match e with CallPushClientAppOutputs req => [req] | _ => [] end)
    events.

Definition is_get_token (e : Event) : bool :=
  match e with CallGetToken => true | _ => false end.

Definition is_close (e : Event) : bool :=
  match e with ChannelClose => true | _ => false end.

(** How many [GetToken] calls a trace has. *)
Definition get_token_count (events : list Event) : nat :=
  List.length (filter is_get_token events).

(** How many times a trace closes the channel. *)
Definition close_count (events : list Event) : nat :=
  List.length (filter is_close events).

(** The calls a trace makes, without what it logs: the remote calls and
    the operations on the channel, in order. *)
Definition operations (events : list Event) : list Event :=
  filter (fun e => match e with Log _ _ => false | _ => true end) events.

(** The events of [n] calls of [get_token]. *)
Fixpoint poll_events (n : nat) : list Event :=
  match n with
  | O => []
  | S n' =>
      Log DEBUG "Flower ClientApp process requests token"
        :: CallGetToken :: poll_events n'
  end.

(** ** Describing the SuperNode *)

Definition answers_none (r : Result GetTokenResponse) : bool :=
  match r with
  | Returned {| res_token := None |} => true
  | _ => false
  end.

Definition answers_token (r : Result GetTokenResponse) (t : Z) : bool :=
  match r with
  | Returned {| res_token := Some t' |} => Z.eqb t' t
  | _ => false
  end.

(** From its call number [c] on, [GetToken] answers "no token yet" [k]
    times and then hands out [t]. *)
Definition polls_from (stub : ClientAppIoStub) (c k : nat) (t : Z) : bool :=
  forallb (fun i => answers_none (GetToken stub i)) (seq c k)
  && answers_token (GetToken stub (c + k)) t.

(** From its call number [c] on, [GetToken] answers "no token yet" [k]
    times and then raises [ex]. *)
Definition polls_fail_from (stub : ClientAppIoStub) (c k : nat) (ex : Exc)
  : Prop :=
  forallb (fun i => answers_none (GetToken stub i)) (seq c k) = true
  /\ GetToken stub (c + k) = Raised ex.

(** Where the token of a run comes from, with the number of [GetToken]
    calls it costs: it was given at start, or the loop polled for it within
    its fuel. *)
Inductive token_source (stub : ClientAppIoStub) (fuel : nat)
  : option Z -> nat -> Z -> Prop :=
| Presupplied (t : Z) : token_source stub fuel (Some t) 0 t
| Polled (k : nat) (t : Z) :
    polls_from stub 0 k t = true -> k < fuel ->
    token_source stub fuel None (S k) t.

(** What the outer [except] clauses write to the log for [ex], and what
    becomes of [ex] (lines 149-152). *)
Definition exit_log (ex : Exc) : list Event :=
  if isinstance ex KeyboardInterrupt then [Log INFO "Closing connection"]
  else if isinstance ex RpcError then
    [Log ERROR ("GRPC error occurred: " ++ str ex)]
  else [].

Definition exit_outcome (ex : Exc) : Outcome unit :=
  if isinstance ex KeyboardInterrupt then Returns tt
  else if isinstance ex RpcError then Returns tt
  else Raises ex.

(** The WorkUnit of a process has been fetched: the channel was set up,
    the token came from [token_source] after [n] polls, the pull returned
    and its three parts were converted. *)
Definition fetched (w : World) (fuel : nat) (supernode : string)
    (token : option Z) (n : nat) (t : Z)
    (message : Message) (context : Context) (run : Run) : Prop :=
  create_channel_outcome w supernode true = Returned tt
  /\ subscribe_outcome w = Returned tt
  /\ token_source (servicer (world_env w) supernode) fuel token n t
  /\ exists res,
       PullClientAppInputs (servicer (world_env w) supernode)
         {| pull_token := t |} = Returned res
       /\ message_from_proto' w (res_message res) = Returned message
       /\ context_from_proto' w (res_context res) = Returned context
       /\ run_from_proto' w (res_run res) = Returned run.

(** ** Building scenarios *)

(** [GetToken] answers "no token yet" [k] times, then hands out [t]. *)
Definition null_then (k : nat) (t : Z) (n : nat) : Result GetTokenResponse :=
  if Nat.ltb n k then Returned {| res_token := None |}
  else Returned {| res_token := Some t |}.

(** A [ClientApp] that returns [reply] and leaves the context as [context']. *)
Definition returning_app (reply : Message) (context' : Context) : ClientApp :=
  fun message _ =>
    {| outcome := Returned reply;
       message_after := message;
       context_after := context' |}.

(** A [ClientApp] that raises [ex] after leaving the context as [context']. *)
Definition raising_app (ex : Exc) (context' : Context) : ClientApp :=
  fun message _ =>
    {| outcome := Raised ex;
       message_after := message;
       context_after := context' |}.

(** One SuperNode behind every address, and one loader. *)
Definition scenario (tokens : nat -> Result GetTokenResponse)
    (pull : Result PullClientAppInputsResponse)
    (push : Result PushClientAppOutputsResponse)
    (load : Result ClientApp) : Env :=
  {| servicer := fun _ =>
       {| GetToken := tokens;
          PullClientAppInputs := fun _ => pull;
          PushClientAppOutputs := fun _ => push |};
     get_load_client_app_fn := fun _ _ _ _ _ _ => load |}.

(** The plain world, except for what [str(ex)] and the conversion of the
    reply message do. *)
Definition world_with (env : Env) (str_of : Exc -> Result string)
    (encode : Message -> Result ProtoMessage) : World :=
  {| world_env := env;
     str' := str_of;
     message_from_proto' := message_from_proto' (plain_world env);
     context_from_proto' := context_from_proto' (plain_world env);
     run_from_proto' := run_from_proto' (plain_world env);
     message_to_proto' := encode;
     context_to_proto' := context_to_proto' (plain_world env);
     create_channel_outcome := create_channel_outcome (plain_world env);
     subscribe_outcome := subscribe_outcome (plain_world env);
     close_outcome := close_outcome (plain_world env) |}.

(** * Properties *)

Local Open Scope list_scope.

(** ** The class hierarchy *)

Lemma Builtin_eqb_eq (a b : Builtin) : Builtin_eqb a b = true <-> a = b.
Proof. destruct a, b; simpl; split; intro H; congruence. Qed.

Lemma isinstance_In (ex : Exc) (b : Builtin) :
  isinstance ex b = true <-> In b (ancestors (exc_class ex)).
Proof.
  unfold isinstance, issubclass. rewrite existsb_exists. split.
  - intros [x [Hin Heq]]. apply Builtin_eqb_eq in Heq. now subst.
  - intro Hin. exists b. split; [assumption | now apply Builtin_eqb_eq].
Qed.

(** Whoever derives from a subclass of [Exception] derives from
    [Exception]. *)
Lemma ancestors_Exception (c : PyClass) (b : Builtin) :
  In b (ancestors c) -> In Exception (builtin_mro b) ->
  In Exception (ancestors c).
Proof.
  induction c as [b0 | qualname bases IH] using PyClass_ind; simpl.
  - destruct b0, b; simpl; intuition congruence.
  - rewrite !in_flat_map. intros [x [Hx Hb]] HE. exists x. split; [easy |].
    rewrite Forall_forall in IH. now apply IH.
Qed.

Lemma LoadClientAppError_is_Exception (ex : Exc) :
  isinstance ex LoadClientAppError = true -> isinstance ex Exception = true.
Proof.
  rewrite !isinstance_In. intro H.
  apply (ancestors_Exception _ _ H). simpl. tauto.
Qed.

Lemma RpcError_is_Exception (ex : Exc) :
  isinstance ex RpcError = true -> isinstance ex Exception = true.
Proof.
  rewrite !isinstance_In. intro H.
  apply (ancestors_Exception _ _ H). simpl. tauto.
Qed.

(** ** Reading a trace, continued *)

Lemma pulls_app (l1 l2 : list Event) : pulls (l1 ++ l2) = pulls l1 ++ pulls l2.
Proof. apply flat_map_app. Qed.

Lemma pushes_app (l1 l2 : list Event) :
  pushes (l1 ++ l2) = pushes l1 ++ pushes l2.
Proof. apply flat_map_app. Qed.

Lemma get_token_count_app (l1 l2 : list Event) :
  get_token_count (l1 ++ l2) = get_token_count l1 + get_token_count l2.
Proof. unfold get_token_count. now rewrite filter_app, length_app. Qed.

Lemma get_token_count_cons (e : Event) (l : list Event) :
  get_token_count (e :: l) =
  (if is_get_token e then 1 else 0) + get_token_count l.
Proof. unfold get_token_count. simpl. now destruct (is_get_token e). Qed.

Lemma close_count_app (l1 l2 : list Event) :
  close_count (l1 ++ l2) = close_count l1 + close_count l2.
Proof. unfold close_count. now rewrite filter_app, length_app. Qed.

Lemma pulls_poll_events (n : nat) : pulls (poll_events n) = [].
Proof. induction n; simpl; auto. Qed.

Lemma pushes_poll_events (n : nat) : pushes (poll_events n) = [].
Proof. induction n; simpl; auto. Qed.

Lemma get_token_count_poll_events (n : nat) :
  get_token_count (poll_events n) = n.
Proof.
  induction n; simpl; auto. unfold get_token_count in *. simpl. now f_equal.
Qed.

Lemma close_count_poll_events (n : nat) : close_count (poll_events n) = 0.
Proof. induction n; simpl; auto. Qed.

Lemma pushes_exit_log (ex : Exc) : pushes (exit_log ex) = [].
Proof.
  unfold exit_log.
  destruct (isinstance ex KeyboardInterrupt), (isinstance ex RpcError);
    reflexivity.
Qed.

Lemma get_token_count_exit_log (ex : Exc) : get_token_count (exit_log ex) = 0.
Proof.
  unfold exit_log.
  destruct (isinstance ex KeyboardInterrupt), (isinstance ex RpcError);
    reflexivity.
Qed.

Lemma close_count_exit_log (ex : Exc) : close_count (exit_log ex) = 0.
Proof.
  unfold exit_log.
  destruct (isinstance ex KeyboardInterrupt), (isinstance ex RpcError);
    reflexivity.
Qed.

(** ** The polling loop *)

Lemma while_token_Some (fuel : nat) (stub : ClientAppIoStub) (t : Z)
    (st : State) :
  while_token_is_None fuel stub (Some t) st = (Returns t, st).
Proof. destruct fuel; reflexivity. Qed.

Lemma get_token_eq (stub : ClientAppIoStub) (st : State) :
  get_token stub st =
  let st' := {| trace := trace st ++ poll_events 1;
                get_token_calls := S (get_token_calls st) |} in
  match GetToken stub (get_token_calls st) with
  | Returned res => (Returns (res_token res), st')
  | Raised ex => (Raises ex, st')
  end.
Proof.
  unfold get_token, bind, log, emit, stub_GetToken, lift, ret, raise. simpl.
  rewrite <- app_assoc. simpl.
  destruct (GetToken stub (get_token_calls st)); reflexivity.
Qed.

(** If the SuperNode hands out [t] after [k] empty answers and the fuel
    allows [k + 1] iterations, the loop ends with [t] after exactly
    [k + 1] calls of [get_token]. *)
Lemma while_token_polls (stub : ClientAppIoStub) (k : nat) :
  forall (c fuel : nat) (t : Z) (st : State),
    polls_from stub c k t = true -> k < fuel -> get_token_calls st = c ->
    while_token_is_None fuel stub None st =
    (Returns t, {| trace := trace st ++ poll_events (S k);
                   get_token_calls := c + S k |}).
Proof.
  unfold polls_from.
  induction k as [| k IH]; intros c fuel t st Hp Hf Hc;
    (destruct fuel as [| fuel]; [lia |]);
    simpl while_token_is_None; unfold bind; rewrite get_token_eq; rewrite Hc;
    simpl in Hp.
  - rewrite Nat.add_0_r in Hp.
    destruct (GetToken stub c) as [[[t' |]] | ex]; simpl in Hp;
      try discriminate.
    apply Z.eqb_eq in Hp. subst t'. simpl.
    rewrite while_token_Some. do 2 f_equal. lia.
  - apply andb_prop in Hp. destruct Hp as [Hp Ht].
    apply andb_prop in Hp. destruct Hp as [H0 Hp].
    destruct (GetToken stub c) as [[[t' |]] | ex]; simpl in H0;
      try discriminate.
    simpl. rewrite (IH (S c) fuel t); simpl.
    + rewrite <- app_assoc. do 3 f_equal. lia.
    + rewrite Hp. simpl. now replace (S (c + k)) with (c + S k) by lia.
    + lia.
    + reflexivity.
Qed.

(** The same when the call after [k] empty answers raises. *)
Lemma while_token_fails (stub : ClientAppIoStub) (k : nat) :
  forall (c fuel : nat) (ex : Exc) (st : State),
    polls_fail_from stub c k ex -> k < fuel -> get_token_calls st = c ->
    while_token_is_None fuel stub None st =
    (Raises ex, {| trace := trace st ++ poll_events (S k);
                   get_token_calls := c + S k |}).
Proof.
  unfold polls_fail_from.
  induction k as [| k IH]; intros c fuel ex st [Hp He] Hf Hc;
    (destruct fuel as [| fuel]; [lia |]);
    simpl while_token_is_None; unfold bind; rewrite get_token_eq; rewrite Hc;
    simpl in Hp.
  - rewrite Nat.add_0_r in He. rewrite He. simpl. do 2 f_equal. lia.
  - apply andb_prop in Hp. destruct Hp as [H0 Hp].
    destruct (GetToken stub c) as [[[t' |]] | ex']; simpl in H0;
      try discriminate.
    simpl. rewrite (IH (S c) fuel ex); simpl.
    + rewrite <- app_assoc. do 3 f_equal. lia.
    + split; [assumption |].
      now replace (S (c + k)) with (c + S k) by lia.
    + lia.
    + reflexivity.
Qed.

(** Whatever the SuperNode answers, the loop only calls [get_token]: it
    returns the token given at start without a call, or the token of its
    last call; it raises what its last call raised; it is cut off only
    after as many calls as it has fuel. *)
Lemma while_token_shape (stub : ClientAppIoStub) (fuel : nat) :
  forall (token : option Z) (st : State),
  exists n : nat,
    snd (while_token_is_None fuel stub token st) =
      {| trace := trace st ++ poll_events n;
         get_token_calls := get_token_calls st + n |}
    /\ match fst (while_token_is_None fuel stub token st), token with
       | Returns t, Some t0 => t = t0 /\ n = 0
       | Returns t, None =>
           exists k, n = S k /\
             GetToken stub (get_token_calls st + k) =
               Returned {| res_token := Some t |}
       | Raises ex, None =>
           exists k, n = S k /\
             GetToken stub (get_token_calls st + k) = Raised ex
       | Raises ex, Some _ => False
       | Diverges, None => n = fuel
       | Diverges, Some _ => False
       end.
Proof.
  induction fuel as [| fuel IH]; intros [t0 |] st;
    try (exists 0; rewrite while_token_Some; simpl;
         rewrite app_nil_r, Nat.add_0_r; destruct st; auto).
  - exists 0. simpl. rewrite app_nil_r, Nat.add_0_r. destruct st; auto.
  - simpl while_token_is_None. unfold bind. rewrite get_token_eq.
    destruct (GetToken stub (get_token_calls st)) as [[tok] | ex] eqn:Hg;
      simpl.
    + match goal with
      | |- context [while_token_is_None fuel stub tok ?s] =>
          destruct (IH tok s) as [n [Hs Hf]]
      end.
      exists (S n). split.
      * rewrite Hs. simpl. rewrite <- app_assoc. simpl.
        f_equal. lia.
      * simpl in Hf.
        destruct (fst (while_token_is_None fuel stub tok _)) as [t | ex |],
          tok as [t1 |]; simpl in Hf; try contradiction; try lia.
        -- destruct Hf as [-> ->]. exists 0.
           rewrite Nat.add_0_r. auto.
        -- destruct Hf as [k [-> Hk]]. exists (S k). split; [reflexivity |].
           now replace (get_token_calls st + S k)
             with (S (get_token_calls st + k)) by lia.
        -- destruct Hf as [k [-> Hk]]. exists (S k). split; [reflexivity |].
           now replace (get_token_calls st + S k)
             with (S (get_token_calls st + k)) by lia.
    + exists 1. split; [f_equal; lia |].
      exists 0. rewrite Nat.add_0_r. auto.
Qed.

(** ** The fault boundary *)

(** The boundary only appends to the trace. *)
Lemma callback_executor_frame (load_client_app_fn : LoadClientAppFn)
    (run : Run) (message : Message) (context : Context) (st : State) :
  callback_executor load_client_app_fn run message context st =
  (fst (callback_executor load_client_app_fn run message context initial),
   {| trace :=
        trace st ++
        trace (snd (callback_executor load_client_app_fn run message context
                      initial));
      get_token_calls := get_token_calls st |}).
Proof.
  unfold callback_executor.
  destruct (outcome (load_and_execute load_client_app_fn run message context))
    as [reply | ex].
  - unfold ret. simpl. rewrite app_nil_r. now destruct st.
  - destruct (isinstance ex Exception).
    + reflexivity.
    + unfold raise. simpl. rewrite app_nil_r. now destruct st.
Qed.

Lemma callback_executor_returns (load_client_app_fn : LoadClientAppFn)
    (run : Run) (message : Message) (context : Context) (reply : Message) :
  let attempt := load_and_execute load_client_app_fn run message context in
  outcome attempt = Returned reply ->
  callback_executor load_client_app_fn run message context initial =
  (Returns (reply, context_after attempt), initial).
Proof.
  intros attempt H. unfold callback_executor. fold attempt. now rewrite H.
Qed.

Lemma callback_executor_caught (load_client_app_fn : LoadClientAppFn)
    (run : Run) (message : Message) (context : Context) (ex : Exc) :
  let attempt := load_and_execute load_client_app_fn run message context in
  outcome attempt = Raised ex -> isinstance ex Exception = true ->
  callback_executor load_client_app_fn run message context initial =
  (Returns (create_error_reply (message_after attempt) (error_of_exception ex),
            context_after attempt),
   {| trace := [Log ERROR "ClientApp raised an exception"];
      get_token_calls := 0 |}).
Proof.
  intros attempt H HE. unfold callback_executor. fold attempt.
  now rewrite H, HE.
Qed.

Lemma callback_executor_escapes (load_client_app_fn : LoadClientAppFn)
    (run : Run) (message : Message) (context : Context) (ex : Exc) :
  let attempt := load_and_execute load_client_app_fn run message context in
  outcome attempt = Raised ex -> isinstance ex Exception = false ->
  callback_executor load_client_app_fn run message context initial =
  (Raises ex, initial).
Proof.
  intros attempt H HE. unfold callback_executor. fold attempt.
  now rewrite H, HE.
Qed.

(** The boundary makes no remote call, closes nothing and always ends. *)
Lemma callback_executor_quiet (load_client_app_fn : LoadClientAppFn)
    (run : Run) (message : Message) (context : Context) :
  let r := callback_executor load_client_app_fn run message context initial in
  fst r <> Diverges
  /\ pulls (trace (snd r)) = [] /\ pushes (trace (snd r)) = []
  /\ get_token_count (trace (snd r)) = 0 /\ close_count (trace (snd r)) = 0.
Proof.
  unfold callback_executor.
  destruct (outcome (load_and_execute load_client_app_fn run message context))
    as [reply | ex]; simpl.
  - repeat split; discriminate.
  - destruct (isinstance ex Exception); simpl; repeat split; discriminate.
Qed.

(** ** The driver, step by step *)

(** The outer [try]/[except]/[finally] around its body. *)
Lemma process_of_try (env : Env) (fuel : nat) (supernode : string)
    (token : option Z) :
  process env fuel supernode token =
  match tried env fuel supernode token with
  | (Returns _, st) => (Returns tt, trace st ++ [ChannelClose])
  | (Raises ex, st) =>
      (exit_outcome ex, trace st ++ exit_log ex ++ [ChannelClose])
  | (Diverges, st) => (Diverges, trace st)
  end.
Proof.
  unfold process, tried, run_clientapp, create_channel, channel_subscribe,
    channel_close, try_finally, try_except, bind, emit, ret. simpl.
  destruct (run_clientapp_try _ _ _ _ _) as [[[] | ex |] st]; simpl;
    try reflexivity.
  unfold run_clientapp_except, exit_outcome, exit_log, log, emit.
  destruct (isinstance ex KeyboardInterrupt); simpl.
  - now rewrite <- app_assoc.
  - destruct (isinstance ex RpcError); simpl.
    + now rewrite <- app_assoc.
    + reflexivity.
Qed.

(** The driver from the pull on. *)
Lemma run_clientapp_with_token_eq (env : Env) (stub : ClientAppIoStub)
    (t : Z) (st : State) :
  run_clientapp_with_token env stub t st =
  let pull := {| pull_token := t |} in
  let at_pull := trace st ++ [CallPullClientAppInputs pull] in
  match PullClientAppInputs stub pull with
  | Raised ex =>
      (Raises ex,
       {| trace := at_pull; get_token_calls := get_token_calls st |})
  | Returned res =>
      let r :=
        callback_executor (get_load_client_app_fn env "" None true None)
          (run_from_proto (res_run res))
          (message_from_proto (res_message res))
          (context_from_proto (res_context res)) initial in
      let at_reply := at_pull ++ trace (snd r) in
      match fst r with
      | Returns (reply_message, context) =>
          let push :=
            {| push_token := t;
               push_message_proto := message_to_proto reply_message;
               push_context_proto := context_to_proto context |} in
          let st' :=
            {| trace := at_reply ++ [CallPushClientAppOutputs push];
               get_token_calls := get_token_calls st |} in
          match PushClientAppOutputs stub push with
          | Returned _ => (Returns tt, st')
          | Raised ex => (Raises ex, st')
          end
      | Raises ex =>
          (Raises ex,
           {| trace := at_reply; get_token_calls := get_token_calls st |})
      | Diverges =>
          (Diverges,
           {| trace := at_reply; get_token_calls := get_token_calls st |})
      end
  end.
Proof.
  unfold run_clientapp_with_token, pull_message, push_message,
    stub_PullClientAppInputs, stub_PushClientAppOutputs, bind, emit, lift,
    ret, raise.
  simpl.
  destruct (PullClientAppInputs stub {| pull_token := t |}) as [res | ex];
    [| reflexivity].
  rewrite callback_executor_frame.
  destruct (callback_executor _ _ _ _ initial) as [[[reply ctx] | ex |] s0];
    simpl; try reflexivity.
  destruct (PushClientAppOutputs stub _); reflexivity.
Qed.

(** A process that obtains its token and its WorkUnit. *)
Lemma process_fetched (env : Env) (fuel : nat) (supernode : string)
    (token : option Z) (n : nat) (t : Z)
    (res : PullClientAppInputsResponse) :
  let stub := servicer env supernode in
  token_source stub fuel token n t ->
  PullClientAppInputs stub {| pull_token := t |} = Returned res ->
  process env fuel supernode token =
  let r :=
    callback_executor (get_load_client_app_fn env "" None true None)
      (run_from_proto (res_run res))
      (message_from_proto (res_message res))
      (context_from_proto (res_context res)) initial in
  let pre :=
    [CreateChannel supernode true; Subscribe] ++ poll_events n
      ++ [CallPullClientAppInputs {| pull_token := t |}] ++ trace (snd r) in
  match fst r with
  | Returns (reply_message, context) =>
      let push :=
        {| push_token := t;
           push_message_proto := message_to_proto reply_message;
           push_context_proto := context_to_proto context |} in
      match PushClientAppOutputs stub push with
      | Returned _ =>
          (Returns tt, pre ++ [CallPushClientAppOutputs push; ChannelClose])
      | Raised ex =>
          (exit_outcome ex,
           pre ++ [CallPushClientAppOutputs push] ++ exit_log ex
             ++ [ChannelClose])
      end
  | Raises ex => (exit_outcome ex, pre ++ exit_log ex ++ [ChannelClose])
  | Diverges => (Diverges, pre)
  end.
Proof.
  intros stub Hsrc Hpull. rewrite process_of_try.
  unfold tried, run_clientapp_try, connect, bind. simpl server_address.
  fold stub.
  assert (Hloop :
    while_token_is_None fuel stub token
      {| trace := [CreateChannel supernode true; Subscribe];
         get_token_calls := 0 |} =
    (Returns t,
     {| trace := [CreateChannel supernode true; Subscribe] ++ poll_events n;
        get_token_calls := n |})).
  { destruct Hsrc as [t | k t Hp Hk].
    - now rewrite while_token_Some.
    - now rewrite (while_token_polls stub k 0 fuel t). }
  rewrite Hloop, run_clientapp_with_token_eq. cbv zeta.
  rewrite Hpull. cbn [trace get_token_calls].
  destruct (callback_executor _ _ _ _ initial) as [[[reply ctx] | ex |] s0];
    cbn [fst snd].
  - destruct (PushClientAppOutputs stub _); cbn [trace];
      now rewrite <- !app_assoc.
  - cbn [trace]. now rewrite <- !app_assoc.
  - cbn [trace]. now rewrite <- !app_assoc.
Qed.

(** Once the boundary has produced a reply, exactly that reply and the
    context that comes with it are pushed, whatever the push then does. *)
Lemma pushes_of_reply (env : Env) (fuel : nat) (supernode : string)
    (token : option Z) (n : nat) (t : Z) (res : PullClientAppInputsResponse)
    (reply_message : Message) (context : Context) :
  let stub := servicer env supernode in
  token_source stub fuel token n t ->
  PullClientAppInputs stub {| pull_token := t |} = Returned res ->
  fst (callback_executor (get_load_client_app_fn env "" None true None)
         (run_from_proto (res_run res))
         (message_from_proto (res_message res))
         (context_from_proto (res_context res)) initial)
    = Returns (reply_message, context) ->
  pushes (snd (process env fuel supernode token)) =
    [{| push_token := t;
        push_message_proto := message_to_proto reply_message;
        push_context_proto := context_to_proto context |}].
Proof.
  intros stub Hsrc Hpull Hexec.
  rewrite (process_fetched env fuel supernode token n t res Hsrc Hpull).
  cbv zeta. rewrite Hexec.
  destruct (callback_executor_quiet
              (get_load_client_app_fn env "" None true None)
              (run_from_proto (res_run res))
              (message_from_proto (res_message res))
              (context_from_proto (res_context res)))
    as [_ [_ [Hq _]]].
  destruct (PushClientAppOutputs (servicer env supernode) _); cbn [snd];
    rewrite !pushes_app, ?pushes_poll_events, ?pushes_exit_log, Hq;
    reflexivity.
Qed.

(** Once an exception has left the boundary, nothing is pushed: the outer
    clauses log what they log and the channel is closed. *)
Lemma process_of_escape (env : Env) (fuel : nat) (supernode : string)
    (token : option Z) (n : nat) (t : Z) (res : PullClientAppInputsResponse)
    (ex : Exc) :
  let stub := servicer env supernode in
  token_source stub fuel token n t ->
  PullClientAppInputs stub {| pull_token := t |} = Returned res ->
  callback_executor (get_load_client_app_fn env "" None true None)
    (run_from_proto (res_run res))
    (message_from_proto (res_message res))
    (context_from_proto (res_context res)) initial
    = (Raises ex, initial) ->
  process env fuel supernode token =
    (exit_outcome ex,
     [CreateChannel supernode true; Subscribe] ++ poll_events n
       ++ [CallPullClientAppInputs {| pull_token := t |}]
       ++ exit_log ex ++ [ChannelClose])
  /\ pushes (snd (process env fuel supernode token)) = [].
Proof.
  intros stub Hsrc Hpull Hexec.
  rewrite (process_fetched env fuel supernode token n t res Hsrc Hpull).
  cbv zeta. rewrite Hexec. cbn [fst snd trace initial].
  rewrite app_nil_r, <- !app_assoc. split.
  - reflexivity.
  - rewrite !pushes_app, pushes_poll_events, pushes_exit_log. reflexivity.
Qed.

(** ** The fault boundary and the reply *)

(** C2: when the callback invocation raises an exception [ex] that is not
    an instance of [LoadClientAppError], the reply carries the error with
    code [CLIENT_APP_RAISED_EXCEPTION] and the reason
    [str(type(ex)) + ":<'" + str(ex) + "'>"]; that reply is pushed when the
    boundary catches [ex] (an instance of [Exception]), and nothing else is
    ever pushed. *)
Theorem invocation_failure_reason (env : Env) (fuel : nat)
    (supernode : string) (token : option Z) (n : nat) (t : Z)
    (res : PullClientAppInputsResponse) (client_app : ClientApp) (ex : Exc) :
  let stub := servicer env supernode in
  let message := message_from_proto (res_message res) in
  let context := context_from_proto (res_context res) in
  let run := run_from_proto (res_run res) in
  let err :=
    {| code := CLIENT_APP_RAISED_EXCEPTION;
       reason := (str_type ex ++ ":<'" ++ str ex ++ "'>")%string |} in
  let reply_message :=
    create_error_reply (message_after (client_app message context)) err in
  token_source stub fuel token n t ->
  PullClientAppInputs stub {| pull_token := t |} = Returned res ->
  get_load_client_app_fn env "" None true None (fab_id run) (fab_version run)
    = Returned client_app ->
  outcome (client_app message context) = Raised ex ->
  isinstance ex LoadClientAppError = false ->
  error reply_message = Some err
  /\ pushes (snd (process env fuel supernode token)) =
       if isinstance ex Exception then
         [{| push_token := t;
             push_message_proto := message_to_proto reply_message;
             push_context_proto :=
               context_to_proto (context_after (client_app message context)) |}]
       else [].
Proof.
  intros stub message context run err reply_message Hsrc Hpull Hload Hout Hnl.
  split; [reflexivity |].
  assert (Hatt : load_and_execute (get_load_client_app_fn env "" None true None)
                   run message context = client_app message context).
  { unfold load_and_execute. now rewrite Hload. }
  assert (Herr : error_of_exception ex = err).
  { unfold error_of_exception. now rewrite Hnl. }
  destruct (isinstance ex Exception) eqn:HE.
  - apply (pushes_of_reply env fuel supernode token n t res); auto.
    fold run message context.
    rewrite (callback_executor_caught _ run message context ex);
      rewrite ?Hatt; auto.
    now rewrite Herr.
  - apply (process_of_escape env fuel supernode token n t res ex); auto.
    fold run message context.
    apply callback_executor_escapes; rewrite ?Hatt; auto.
Qed.

(** C3 (amended): when callback resolution raises an instance of
    [LoadClientAppError], the reply pushed carries the error with code
    [LOAD_CLIENT_APP_EXCEPTION] and the fixed reason "An exception was
    raised when attempting to load `ClientApp`", whatever the text of the
    exception, and the context pushed is the context fetched. *)
Theorem load_failure_reply (env : Env) (fuel : nat) (supernode : string)
    (token : option Z) (n : nat) (t : Z) (res : PullClientAppInputsResponse)
    (ex : Exc) :
  let stub := servicer env supernode in
  let message := message_from_proto (res_message res) in
  let context := context_from_proto (res_context res) in
  let run := run_from_proto (res_run res) in
  let err :=
    {| code := LOAD_CLIENT_APP_EXCEPTION;
       reason :=
         "An exception was raised when attempting to load `ClientApp`" |} in
  let reply_message := create_error_reply message err in
  token_source stub fuel token n t ->
  PullClientAppInputs stub {| pull_token := t |} = Returned res ->
  get_load_client_app_fn env "" None true None (fab_id run) (fab_version run)
    = Raised ex ->
  isinstance ex LoadClientAppError = true ->
  error reply_message = Some err
  /\ pushes (snd (process env fuel supernode token)) =
       [{| push_token := t;
           push_message_proto := message_to_proto reply_message;
           push_context_proto := context_to_proto context |}].
Proof.
  intros stub message context run err reply_message Hsrc Hpull Hload Hl.
  split; [reflexivity |].
  apply (pushes_of_reply env fuel supernode token n t res); auto.
  fold run message context.
  rewrite (callback_executor_caught _ run message context ex).
  - unfold load_and_execute. rewrite Hload. simpl.
    unfold error_of_exception. now rewrite Hl.
  - unfold load_and_execute. now rewrite Hload.
  - now apply LoadClientAppError_is_Exception.
Qed.

(** C4: when the callback returns, the message pushed is the value it
    returned and the context pushed is the context object as the callback
    left it. *)
Theorem successful_reply_pushed (env : Env) (fuel : nat) (supernode : string)
    (token : option Z) (n : nat) (t : Z) (res : PullClientAppInputsResponse)
    (client_app : ClientApp) (reply_message : Message) :
  let stub := servicer env supernode in
  let message := message_from_proto (res_message res) in
  let context := context_from_proto (res_context res) in
  let run := run_from_proto (res_run res) in
  token_source stub fuel token n t ->
  PullClientAppInputs stub {| pull_token := t |} = Returned res ->
  get_load_client_app_fn env "" None true None (fab_id run) (fab_version run)
    = Returned client_app ->
  outcome (client_app message context) = Returned reply_message ->
  pushes (snd (process env fuel supernode token)) =
    [{| push_token := t;
        push_message_proto := message_to_proto reply_message;
        push_context_proto :=
          context_to_proto (context_after (client_app message context)) |}].
Proof.
  intros stub message context run Hsrc Hpull Hload Hout.
  apply (pushes_of_reply env fuel supernode token n t res); auto.
  fold run message context.
  rewrite (callback_executor_returns _ run message context reply_message);
    unfold load_and_execute; now rewrite Hload.
Qed.

(** C9: the boundary classifies by the type of the exception, not by the
    step that raised it.  Whether [ex] comes out of callback resolution or
    out of the callback itself, an instance of [LoadClientAppError] yields
    the code [LOAD_CLIENT_APP_EXCEPTION] with the fixed reason and loses
    its own text; any other exception the boundary catches yields the code
    [CLIENT_APP_RAISED_EXCEPTION] with the reason
    [str(type(ex)) + ":<'" + str(ex) + "'>"]. *)
Theorem classification_by_exception_type (env : Env) (fuel : nat)
    (supernode : string) (token : option Z) (n : nat) (t : Z)
    (res : PullClientAppInputsResponse) (ex : Exc) :
  let stub := servicer env supernode in
  let load_client_app_fn := get_load_client_app_fn env "" None true None in
  let message := message_from_proto (res_message res) in
  let context := context_from_proto (res_context res) in
  let run := run_from_proto (res_run res) in
  let attempt := load_and_execute load_client_app_fn run message context in
  let load_error :=
    {| code := LOAD_CLIENT_APP_EXCEPTION;
       reason :=
         "An exception was raised when attempting to load `ClientApp`" |} in
  let raised_error :=
    {| code := CLIENT_APP_RAISED_EXCEPTION;
       reason := (str_type ex ++ ":<'" ++ str ex ++ "'>")%string |} in
  let pushed (err : Error) :=
    [{| push_token := t;
        push_message_proto :=
          message_to_proto (create_error_reply (message_after attempt) err);
        push_context_proto := context_to_proto (context_after attempt) |}] in
  token_source stub fuel token n t ->
  PullClientAppInputs stub {| pull_token := t |} = Returned res ->
  (load_client_app_fn (fab_id run) (fab_version run) = Raised ex
   \/ exists client_app,
        load_client_app_fn (fab_id run) (fab_version run) = Returned client_app
        /\ outcome (client_app message context) = Raised ex) ->
  (isinstance ex LoadClientAppError = true ->
   pushes (snd (process env fuel supernode token)) = pushed load_error)
  /\ (isinstance ex LoadClientAppError = false ->
      pushes (snd (process env fuel supernode token)) =
        if isinstance ex Exception then pushed raised_error else []).
Proof.
  intros stub load_client_app_fn message context run attempt load_error
    raised_error pushed Hsrc Hpull Hstep.
  assert (Hout : outcome attempt = Raised ex).
  { unfold attempt, load_and_execute.
    destruct Hstep as [Hl | [client_app [Hl Hr]]]; now rewrite Hl. }
  split; intro Hl.
  - apply (pushes_of_reply env fuel supernode token n t res); auto.
    fold load_client_app_fn run message context.
    rewrite (callback_executor_caught _ run message context ex Hout).
    + fold attempt. unfold error_of_exception. now rewrite Hl.
    + now apply LoadClientAppError_is_Exception.
  - destruct (isinstance ex Exception) eqn:HE.
    + apply (pushes_of_reply env fuel supernode token n t res); auto.
      fold load_client_app_fn run message context.
      rewrite (callback_executor_caught _ run message context ex Hout HE).
      fold attempt. unfold error_of_exception. now rewrite Hl.
    + apply (process_of_escape env fuel supernode token n t res ex); auto.
      fold load_client_app_fn run message context.
      now apply callback_executor_escapes.
Qed.

(** ** The shape of every run *)

(** The loop can only be cut off when no token was given and every answer
    within the fuel was "no token yet". *)
Lemma while_token_diverges (stub : ClientAppIoStub) (fuel : nat) :
  forall (token : option Z) (st : State),
    fst (while_token_is_None fuel stub token st) = Diverges ->
    token = None
    /\ forall i, i < fuel ->
         answers_none (GetToken stub (get_token_calls st + i)) = true.
Proof.
  induction fuel as [| fuel IH]; intros [t0 |] st;
    try (rewrite while_token_Some; discriminate).
  - intros _. split; [reflexivity | intros i Hi; lia].
  - simpl while_token_is_None. unfold bind. rewrite get_token_eq. cbv zeta.
    destruct (GetToken stub (get_token_calls st)) as [[tok] | ex] eqn:Hg;
      [| discriminate].
    cbn [res_token]. intro Hd. apply IH in Hd. destruct Hd as [-> Hall].
    split; [reflexivity |]. intros [| i] Hi.
    + now rewrite Nat.add_0_r, Hg.
    + specialize (Hall i (proj2 (Nat.succ_lt_mono i fuel) Hi)).
      simpl in Hall.
      now replace (get_token_calls st + S i)
        with (S (get_token_calls st + i)) by lia.
Qed.

(** From the pull on, the driver makes one pull, at most one push, under
    the token it was given, and it always ends. *)
Lemma run_clientapp_with_token_shape (env : Env) (stub : ClientAppIoStub)
    (t : Z) (st : State) :
  let r := run_clientapp_with_token env stub t st in
  exists body,
    trace (snd r) =
      trace st ++ CallPullClientAppInputs {| pull_token := t |} :: body
    /\ get_token_count body = 0 /\ close_count body = 0 /\ pulls body = []
    /\ fst r <> Diverges
    /\ (fst r = Returns tt ->
        exists push, pushes body = [push] /\ push_token push = t).
Proof.
  cbv zeta. rewrite run_clientapp_with_token_eq. cbv zeta.
  destruct (PullClientAppInputs stub {| pull_token := t |}) as [res | ex].
  - destruct (callback_executor_quiet
                (get_load_client_app_fn env "" None true None)
                (run_from_proto (res_run res))
                (message_from_proto (res_message res))
                (context_from_proto (res_context res)))
      as [Hnd [Hpl [Hps [Hg Hc]]]].
    destruct (callback_executor _ _ _ _ initial)
      as [[[reply ctx] | ex |] s0]; cbn [fst snd] in *.
    + match goal with
      | |- context [CallPushClientAppOutputs ?p] =>
          exists (trace s0 ++ [CallPushClientAppOutputs p]);
          assert (Hps' :
            pushes (trace s0 ++ [CallPushClientAppOutputs p]) = [p])
            by (rewrite pushes_app, Hps; reflexivity)
      end.
      destruct (PushClientAppOutputs stub _); cbn [fst snd trace];
        rewrite <- !app_assoc; simpl;
        rewrite get_token_count_app, close_count_app, pulls_app, Hg, Hc, Hpl;
        (repeat split; try reflexivity; try discriminate);
        intros _; eexists; split; [exact Hps' | reflexivity].
    + exists (trace s0). cbn [fst snd trace]. rewrite <- !app_assoc.
      repeat split; auto; discriminate.
    + contradiction.
  - exists []. cbn [fst snd trace]. repeat split; auto; discriminate.
Qed.

(** The body of the outer [try], in every run: some calls of [get_token]
    and then, if the loop ended with a token, the events from the pull on. *)
Lemma tried_shape (env : Env) (fuel : nat) (supernode : string)
    (token : option Z) :
  let stub := servicer env supernode in
  let r := tried env fuel supernode token in
  exists (n : nat) (body : list Event),
    trace (snd r) =
      [CreateChannel supernode true; Subscribe] ++ poll_events n ++ body
    /\ get_token_count body = 0 /\ close_count body = 0
    /\ match token with
       | Some _ => n = 0
       | None => 0 < fuel -> 0 < n
       end
    /\ (fst r = Returns tt ->
        exists t push,
          pulls body = [{| pull_token := t |}]
          /\ pushes body = [push] /\ push_token push = t
          /\ match token with
             | Some t0 => t = t0
             | None =>
                 exists k, n = S k /\
                   GetToken stub k = Returned {| res_token := Some t |}
             end).
Proof.
  cbv zeta. unfold tried, run_clientapp_try, connect, bind.
  simpl server_address.
  match goal with
  | |- context [while_token_is_None fuel ?stub token ?s] =>
      destruct (while_token_shape stub fuel token s) as [n [Hs Hf]];
      destruct (while_token_is_None fuel stub token s) as [[t | ex |] st']
  end; cbn [fst snd] in *; subst st'; cbn [trace get_token_calls] in *.
  - match goal with
    | |- context [run_clientapp_with_token env ?stub t ?s] =>
        destruct (run_clientapp_with_token_shape env stub t s)
          as [body [Htr [Hg [Hc [Hpl [_ Hret]]]]]]
    end.
    exists n, (CallPullClientAppInputs {| pull_token := t |} :: body).
    rewrite Htr. cbn [trace]. rewrite <- app_assoc.
    split; [reflexivity |]. split; [exact Hg |]. split; [exact Hc |].
    split.
    + destruct token as [t0 |]; [tauto |].
      destruct Hf as [k [-> _]]. lia.
    + intro Hr.
      match type of Hr with
      | fst ?x = _ => destruct x as [[[] | |] s']; try discriminate
      end.
      destruct (Hret eq_refl) as [push [Hps Ht]].
      exists t, push. simpl. rewrite Hpl.
      repeat split; auto.
      destruct token as [t0 |]; [tauto | exact Hf].
  - exists n, []. rewrite app_nil_r.
    repeat split; try discriminate.
    destruct token as [t0 |]; [contradiction |].
    destruct Hf as [k [-> _]]. lia.
  - exists n, []. rewrite app_nil_r.
    repeat split; try discriminate.
    destruct token as [t0 |]; [contradiction | lia].
Qed.

(** ** Tokens and remote calls *)

(** C5: in a run that is not aborted (the body of the outer [try] runs to
    its end) there is exactly one [PullClientAppInputs] call and exactly
    one [PushClientAppOutputs] call, and both carry the same token: the one
    given at start, or the one [GetToken] handed out in its last call. *)
Theorem one_pull_one_push_same_token (env : Env) (fuel : nat)
    (supernode : string) (token : option Z) :
  let stub := servicer env supernode in
  let events := snd (process env fuel supernode token) in
  fst (tried env fuel supernode token) = Returns tt ->
  exists t push,
    pulls events = [{| pull_token := t |}]
    /\ pushes events = [push] /\ push_token push = t
    /\ match token with
       | Some t0 => t = t0 /\ get_token_count events = 0
       | None =>
           exists k, get_token_count events = S k /\
             GetToken stub k = Returned {| res_token := Some t |}
       end.
Proof.
  cbv zeta. intro Hr. rewrite process_of_try.
  destruct (tried_shape env fuel supernode token)
    as [n [body [Htr [Hg [Hc [Hn Hret]]]]]].
  destruct (Hret Hr) as [t [push [Hpl [Hps [Ht Htok]]]]].
  destruct (tried env fuel supernode token) as [[[] | ex |] st];
    try discriminate.
  cbn [fst snd] in *. rewrite Htr.
  exists t, push.
  rewrite !pulls_app, !pushes_app, !get_token_count_app,
    pulls_poll_events, pushes_poll_events, get_token_count_poll_events,
    Hpl, Hps, Hg.
  repeat split; auto.
  destruct token as [t0 |].
  - subst n. auto.
  - destruct Htok as [k [-> Hk]]. exists k.
    split; [unfold get_token_count; simpl; lia | exact Hk].
Qed.

(** C6: with a token given at start [GetToken] is never called.  Without
    one, if the SuperNode answers "no token yet" [k] times and then hands
    out [t], the driver calls [GetToken] exactly [k + 1] times and then
    pulls with [t]; and whatever the SuperNode answers, at least one
    [GetToken] call is made. *)
Theorem token_gate_iff_no_token (env : Env) (fuel : nat)
    (supernode : string) :
  let stub := servicer env supernode in
  (forall t : Z,
     get_token_count (snd (process env fuel supernode (Some t))) = 0)
  /\ (forall (k : nat) (t : Z),
        polls_from stub 0 k t = true -> k < fuel ->
        exists rest,
          snd (process env fuel supernode None) =
            [CreateChannel supernode true; Subscribe] ++ poll_events (S k)
              ++ CallPullClientAppInputs {| pull_token := t |} :: rest
          /\ get_token_count rest = 0
          /\ get_token_count (snd (process env fuel supernode None)) = S k)
  /\ (0 < fuel ->
      0 < get_token_count (snd (process env fuel supernode None))).
Proof.
  cbv zeta. split; [| split].
  - intro t. rewrite process_of_try.
    destruct (tried_shape env fuel supernode (Some t))
      as [n [body [Htr [Hg [Hc [Hn _]]]]]].
    subst n.
    destruct (tried env fuel supernode (Some t)) as [[[] | ex |] st];
      cbn [fst snd] in *; rewrite Htr;
      rewrite ?get_token_count_app, ?get_token_count_exit_log, Hg;
      reflexivity.
  - intros k t Hp Hk. rewrite process_of_try.
    unfold tried, run_clientapp_try, connect, bind. simpl server_address.
    rewrite (while_token_polls _ k 0 fuel t); auto.
    match goal with
    | |- context [run_clientapp_with_token env ?stub t ?s] =>
        destruct (run_clientapp_with_token_shape env stub t s)
          as [body [Htr [Hg [Hc [Hpl [Hnd _]]]]]];
        destruct (run_clientapp_with_token env stub t s) as [[[] | ex |] st]
    end; cbn [fst snd trace] in *; try contradiction; rewrite Htr.
    + exists (body ++ [ChannelClose]).
      rewrite <- !app_assoc. split; [reflexivity |].
      repeat first [ rewrite get_token_count_app
                   | rewrite get_token_count_cons
                   | rewrite get_token_count_poll_events ].
      rewrite Hg. unfold get_token_count. simpl. split; [reflexivity | lia].
    + exists (body ++ exit_log ex ++ [ChannelClose]).
      rewrite <- !app_assoc. split; [reflexivity |].
      repeat first [ rewrite get_token_count_app
                   | rewrite get_token_count_cons
                   | rewrite get_token_count_poll_events
                   | rewrite get_token_count_exit_log ].
      rewrite Hg. unfold get_token_count. simpl. split; [reflexivity | lia].
  - intro Hfuel. rewrite process_of_try.
    destruct (tried_shape env fuel supernode None)
      as [n [body [Htr [Hg [Hc [Hn _]]]]]].
    specialize (Hn Hfuel).
    destruct (tried env fuel supernode None) as [[[] | ex |] st];
      cbn [fst snd] in *; rewrite Htr;
      rewrite ?get_token_count_app, get_token_count_poll_events; simpl; lia.
Qed.

(** ** Transport failures and the channel *)

Lemma while_token_source (stub : ClientAppIoStub) (fuel : nat)
    (token : option Z) (n : nat) (t : Z) (st : State) :
  token_source stub fuel token n t -> get_token_calls st = 0 ->
  while_token_is_None fuel stub token st =
  (Returns t,
   {| trace := trace st ++ poll_events n; get_token_calls := n |}).
Proof.
  intros [t' | k t' Hp Hk] Hc.
  - rewrite while_token_Some. simpl. rewrite app_nil_r. destruct st.
    simpl in Hc. now subst.
  - now rewrite (while_token_polls stub k 0 fuel t').
Qed.

(** C7: a [grpc.RpcError] out of [GetToken], [PullClientAppInputs] or
    [PushClientAppOutputs] ends the run: the outer clause logs it, the
    channel is closed and [run_clientapp] returns without raising.  No
    call is repeated and no error reply is pushed for it: after a failed
    [GetToken] or pull nothing is pushed, and after a failed push the only
    push is the failed one. *)
Theorem transport_failure_is_fatal (env : Env) (fuel : nat)
    (supernode : string) (token : option Z) (ex : Exc) :
  let stub := servicer env supernode in
  let line :=
    if isinstance ex KeyboardInterrupt then Log INFO "Closing connection"
    else Log ERROR ("GRPC error occurred: " ++ str ex)%string in
  isinstance ex RpcError = true ->
  (forall k : nat,
     token = None -> polls_fail_from stub 0 k ex -> k < fuel ->
     process env fuel supernode token =
       (Returns tt,
        [CreateChannel supernode true; Subscribe] ++ poll_events (S k)
          ++ [line; ChannelClose])
     /\ pushes (snd (process env fuel supernode token)) = [])
  /\ (forall (n : nat) (t : Z),
        token_source stub fuel token n t ->
        PullClientAppInputs stub {| pull_token := t |} = Raised ex ->
        process env fuel supernode token =
          (Returns tt,
           [CreateChannel supernode true; Subscribe] ++ poll_events n
             ++ [CallPullClientAppInputs {| pull_token := t |};
                 line; ChannelClose])
        /\ pushes (snd (process env fuel supernode token)) = [])
  /\ (forall (n : nat) (t : Z) (res : PullClientAppInputsResponse)
        (reply_message : Message) (context : Context),
        let r :=
          callback_executor (get_load_client_app_fn env "" None true None)
            (run_from_proto (res_run res))
            (message_from_proto (res_message res))
            (context_from_proto (res_context res)) initial in
        let push :=
          {| push_token := t;
             push_message_proto := message_to_proto reply_message;
             push_context_proto := context_to_proto context |} in
        token_source stub fuel token n t ->
        PullClientAppInputs stub {| pull_token := t |} = Returned res ->
        fst r = Returns (reply_message, context) ->
        PushClientAppOutputs stub push = Raised ex ->
        process env fuel supernode token =
          (Returns tt,
           [CreateChannel supernode true; Subscribe] ++ poll_events n
             ++ [CallPullClientAppInputs {| pull_token := t |}]
             ++ trace (snd r)
             ++ [CallPushClientAppOutputs push; line; ChannelClose])
        /\ pushes (snd (process env fuel supernode token)) = [push]).
Proof.
  cbv zeta. intro Hrpc.
  assert (Hout : exit_outcome ex = Returns tt).
  { unfold exit_outcome. rewrite Hrpc.
    now destruct (isinstance ex KeyboardInterrupt). }
  assert (Hlog :
    exit_log ex =
    [if isinstance ex KeyboardInterrupt then Log INFO "Closing connection"
     else Log ERROR ("GRPC error occurred: " ++ str ex)%string]).
  { unfold exit_log. rewrite Hrpc.
    now destruct (isinstance ex KeyboardInterrupt). }
  split; [| split].
  - intros k -> Hp Hk.
    assert (Hproc :
      process env fuel supernode None =
        (Returns tt,
         [CreateChannel supernode true; Subscribe] ++ poll_events (S k)
           ++ exit_log ex ++ [ChannelClose])).
    { rewrite process_of_try.
      unfold tried, run_clientapp_try, connect, bind. simpl server_address.
      rewrite (while_token_fails _ k 0 fuel ex); auto.
      cbn [trace]. now rewrite Hout, <- !app_assoc. }
    rewrite Hproc. split.
    + now rewrite Hlog.
    + cbn [snd].
      rewrite !pushes_app, pushes_poll_events, pushes_exit_log. reflexivity.
  - intros n t Hsrc Hpull.
    assert (Hproc :
      process env fuel supernode token =
        (Returns tt,
         [CreateChannel supernode true; Subscribe] ++ poll_events n
           ++ [CallPullClientAppInputs {| pull_token := t |}]
           ++ exit_log ex ++ [ChannelClose])).
    { rewrite process_of_try.
      unfold tried, run_clientapp_try, connect, bind. simpl server_address.
      rewrite (while_token_source _ fuel token n t); auto.
      rewrite run_clientapp_with_token_eq. cbv zeta. rewrite Hpull.
      cbn [trace]. now rewrite Hout, <- !app_assoc. }
    rewrite Hproc. split.
    + now rewrite Hlog.
    + cbn [snd].
      rewrite !pushes_app, pushes_poll_events, pushes_exit_log. reflexivity.
  - intros n t res reply_message context Hsrc Hpull Hexec Hpush.
    rewrite (process_fetched env fuel supernode token n t res Hsrc Hpull).
    cbv zeta. rewrite Hexec, Hpush, Hout, Hlog. split.
    + now rewrite <- !app_assoc.
    + destruct (callback_executor_quiet
                  (get_load_client_app_fn env "" None true None)
                  (run_from_proto (res_run res))
                  (message_from_proto (res_message res))
                  (context_from_proto (res_context res)))
        as [_ [_ [Hq _]]].
      cbn [snd]. rewrite !pushes_app, pushes_poll_events, Hq.
      now destruct (isinstance ex KeyboardInterrupt).
Qed.

Lemma tried_diverges (env : Env) (fuel : nat) (supernode : string)
    (token : option Z) :
  fst (tried env fuel supernode token) = Diverges ->
  token = None
  /\ forall i, i < fuel ->
       answers_none (GetToken (servicer env supernode) i) = true.
Proof.
  unfold tried, run_clientapp_try, connect, bind. simpl server_address.
  match goal with
  | |- context [while_token_is_None fuel ?stub token ?s] =>
      pose proof (while_token_diverges stub fuel token s) as Hd;
      destruct (while_token_is_None fuel stub token s) as [[t | ex |] st']
  end; cbn [fst] in *.
  - match goal with
    | |- context [run_clientapp_with_token env ?stub t ?s] =>
        destruct (run_clientapp_with_token_shape env stub t s)
          as [body [_ [_ [_ [_ [Hnd _]]]]]]
    end.
    intro H. contradiction.
  - discriminate.
  - intros _. exact (Hd eq_refl).
Qed.

(** C8: every run that ends closes the channel, exactly once and as its
    last act: after the body of the outer [try] returned, after a
    [KeyboardInterrupt] (logged at [INFO]), after a [grpc.RpcError]
    (logged at [ERROR]), and after any other exception, which then
    propagates.  A run ends unless no token was given and every answer of
    [GetToken] within the fuel was "no token yet". *)
Theorem channel_closed_once_on_every_exit (env : Env) (fuel : nat)
    (supernode : string) (token : option Z) :
  let stub := servicer env supernode in
  let r := process env fuel supernode token in
  let body := tried env fuel supernode token in
  ((token <> None
    \/ exists i, i < fuel /\ answers_none (GetToken stub i) = false) ->
   fst r <> Diverges)
  /\ (fst r <> Diverges ->
      close_count (snd r) = 1
      /\ close_count (trace (snd body)) = 0
      /\ match fst body with
         | Returns _ => r = (Returns tt, trace (snd body) ++ [ChannelClose])
         | Raises ex =>
             if isinstance ex KeyboardInterrupt then
               r = (Returns tt,
                    trace (snd body)
                      ++ [Log INFO "Closing connection"; ChannelClose])
             else if isinstance ex RpcError then
               r = (Returns tt,
                    trace (snd body)
                      ++ [Log ERROR ("GRPC error occurred: " ++ str ex)%string;
                          ChannelClose])
             else r = (Raises ex, trace (snd body) ++ [ChannelClose])
         | Diverges => False
         end).
Proof.
  cbv zeta. rewrite process_of_try.
  pose proof (tried_diverges env fuel supernode token) as Hdiv.
  destruct (tried_shape env fuel supernode token)
    as [n [body [Htr [_ [Hc _]]]]].
  assert (Hbody : close_count (trace (snd (tried env fuel supernode token)))
                  = 0).
  { rewrite Htr.
    rewrite !close_count_app, close_count_poll_events, Hc. reflexivity. }
  destruct (tried env fuel supernode token) as [[[] | ex |] st];
    cbn [fst snd] in *.
  - split; [discriminate |]. intros _.
    rewrite close_count_app, Hbody. repeat split; reflexivity.
  - split.
    + intros _. unfold exit_outcome.
      destruct (isinstance ex KeyboardInterrupt); [discriminate |].
      destruct (isinstance ex RpcError); discriminate.
    + intros _.
      rewrite !close_count_app, close_count_exit_log, Hbody.
      repeat split; try reflexivity.
      unfold exit_outcome, exit_log.
      destruct (isinstance ex KeyboardInterrupt); [reflexivity |].
      destruct (isinstance ex RpcError); reflexivity.
  - split.
    + intros Hend _. destruct (Hdiv eq_refl) as [Hnone Hall].
      destruct Hend as [Hsome | [i [Hi Hans]]]; [contradiction |].
      rewrite (Hall i Hi) in Hans. discriminate.
    + intro H. now contradiction H.
Qed.

(** * Further properties of the driver *)

(** ** Computations leave earlier events alone *)

Lemma frames_ret {A} (a : A) : frames (ret a).
Proof. intro st. unfold ret. simpl. rewrite app_nil_r. now destruct st. Qed.

Lemma frames_raise {A} (ex : Exc) : frames (@raise A ex).
Proof. intro st. unfold raise. simpl. rewrite app_nil_r. now destruct st. Qed.

Lemma frames_diverge {A} : frames (@diverge A).
Proof. intro st. unfold diverge. simpl. rewrite app_nil_r. now destruct st. Qed.

Lemma frames_emit (e : Event) : frames (emit e).
Proof. intro st. reflexivity. Qed.

Lemma frames_lift {A} (r : Result A) : frames (lift r).
Proof. destruct r; [apply frames_ret | apply frames_raise]. Qed.

Lemma frames_bind {A B} (m : M A) (k : A -> M B) :
  frames m -> (forall a, frames (k a)) -> frames (bind m k).
Proof.
  intros Hm Hk st. unfold bind. rewrite (Hm st).
  destruct (m {| trace := []; get_token_calls := get_token_calls st |})
    as [[a | ex |] s1]; cbn [fst snd]; try reflexivity.
  rewrite (Hk a {| trace := trace st ++ trace s1;
                   get_token_calls := get_token_calls s1 |}).
  rewrite (Hk a s1). cbn [fst snd trace get_token_calls].
  now rewrite app_assoc.
Qed.

Lemma frames_try_except {A} (body : M A) (handlers : Exc -> option (M A)) :
  frames body ->
  (forall ex handler, handlers ex = Some handler -> frames handler) ->
  frames (try_except body handlers).
Proof.
  intros Hb Hh st. unfold try_except. rewrite (Hb st).
  destruct (body {| trace := []; get_token_calls := get_token_calls st |})
    as [[a | ex |] s1]; cbn [fst snd]; try reflexivity.
  destruct (handlers ex) as [handler |] eqn:Hex; [| reflexivity].
  rewrite (Hh ex handler Hex
             {| trace := trace st ++ trace s1;
                get_token_calls := get_token_calls s1 |}).
  rewrite (Hh ex handler Hex s1). cbn [fst snd trace get_token_calls].
  now rewrite app_assoc.
Qed.

Lemma frames_try_finally {A} (body : M A) (cleanup : M unit) :
  frames body -> frames cleanup -> frames (try_finally body cleanup).
Proof.
  intros Hb Hc st. unfold try_finally. rewrite (Hb st).
  destruct (body {| trace := []; get_token_calls := get_token_calls st |})
    as [[a | ex |] s1]; cbn [fst snd]; try reflexivity;
    rewrite (Hc {| trace := trace st ++ trace s1;
                   get_token_calls := get_token_calls s1 |});
    rewrite (Hc s1); cbn [fst snd trace get_token_calls];
    destruct (cleanup {| trace := []; get_token_calls := get_token_calls s1 |})
      as [[[] | ex' |] s2]; cbn [fst snd trace get_token_calls];
    now rewrite app_assoc.
Qed.

Lemma frames_get_token (stub : ClientAppIoStub) : frames (get_token stub).
Proof.
  intro st. rewrite !get_token_eq. cbv zeta. cbn [trace get_token_calls].
  destruct (GetToken stub (get_token_calls st)); reflexivity.
Qed.

Lemma frames_while_token_is_None (stub : ClientAppIoStub) (fuel : nat) :
  forall token, frames (while_token_is_None fuel stub token).
Proof.
  induction fuel as [| fuel IH]; intros [t |].
  - apply (@frames_ret Z).
  - apply (@frames_diverge Z).
  - apply (@frames_ret Z).
  - simpl. apply frames_bind; [apply frames_get_token | apply IH].
Qed.

Lemma frames_callback_executor (load_client_app_fn : LoadClientAppFn)
    (run : Run) (message : Message) (context : Context) :
  frames (callback_executor load_client_app_fn run message context).
Proof.
  unfold callback_executor.
  destruct (outcome (load_and_execute load_client_app_fn run message context))
    as [reply | ex].
  - apply frames_ret.
  - destruct (isinstance ex Exception).
    + apply frames_bind; [apply frames_emit | intro; apply frames_ret].
    + apply frames_raise.
Qed.

Lemma frames_run_clientapp_with_token (env : Env) (stub : ClientAppIoStub)
    (t : Z) :
  frames (run_clientapp_with_token env stub t).
Proof.
  unfold run_clientapp_with_token, pull_message, push_message,
    stub_PullClientAppInputs, stub_PushClientAppOutputs.
  apply frames_bind.
  - apply frames_bind.
    + apply frames_bind; [apply frames_emit | intros _; apply frames_lift].
    + intro res. apply frames_ret.
  - intros [[message context] run]. apply frames_bind.
    + apply frames_callback_executor.
    + intros [reply_message context']. apply frames_bind.
      * apply frames_bind.
        -- apply frames_bind; [apply frames_emit | intros _; apply frames_lift].
        -- intro res. apply frames_ret.
      * intros _. apply frames_ret.
Qed.

Lemma frames_run_clientapp (env : Env) (fuel : nat) (supernode : string)
    (token : option Z) :
  frames (run_clientapp env fuel supernode token).
Proof.
  unfold run_clientapp, create_channel, channel_subscribe, channel_close.
  apply frames_bind.
  - apply frames_bind; [apply frames_emit | intros _; apply frames_ret].
  - intro channel. apply frames_bind; [apply frames_emit | intros _].
    apply frames_try_finally; [| apply frames_emit].
    apply frames_try_except.
    + unfold run_clientapp_try. apply frames_bind.
      * apply frames_while_token_is_None.
      * intro t. apply frames_run_clientapp_with_token.
    + unfold run_clientapp_except. intros ex handler.
      destruct (isinstance ex KeyboardInterrupt);
        [| destruct (isinstance ex RpcError)]; intro H;
        try discriminate; injection H as <-; apply frames_emit.
Qed.

(** ** The command line entry point *)

(** X1: [flwr_clientapp] logs its start line before it parses.  When
    parsing raises, nothing else happens: no channel is made and the
    exception propagates.  Otherwise it logs the line with the address and
    the token and then does exactly what [run_clientapp] does with them:
    the same outcome and, after the two log lines, the same events. *)
Theorem flwr_clientapp_then_run_clientapp (env : Env) (fuel : nat)
    (parse_args : Result Namespace) :
  command env fuel parse_args =
  match parse_args with
  | Raised ex => (Raises ex, [Log INFO "Starting Flower ClientApp"])
  | Returned args =>
      (fst (process env fuel (args_supernode args) (args_token args)),
       [Log INFO "Starting Flower ClientApp";
        Log DEBUG
          ("Staring isolated `ClientApp` connected to SuperNode ClientAppIo at "
             ++ args_supernode args ++ " with the token "
             ++ str_token (args_token args))%string]
         ++ snd (process env fuel (args_supernode args) (args_token args)))
  end.
Proof.
  unfold command, flwr_clientapp, bind, log, emit, lift, ret, raise.
  simpl. destruct parse_args as [args | ex]; [| reflexivity].
  rewrite frames_run_clientapp. cbn [get_token_calls trace fst snd].
  unfold process. fold initial.
  now destruct (run_clientapp env fuel (args_supernode args) (args_token args)
                  initial).
Qed.

(** ** Complete runs *)

(** X3: when resolution or invocation raises an instance of [Exception]
    and the push of the error reply is acknowledged, the run returns as
    after a success: the only trace of the failure is one [ERROR] line
    "ClientApp raised an exception" before the push.  This holds for a
    [grpc.RpcError] raised inside the boundary too: it is answered with an
    error reply, not logged as a GRPC error. *)
Theorem caught_failure_run (env : Env) (fuel : nat) (supernode : string)
    (token : option Z) (n : nat) (t : Z) (res : PullClientAppInputsResponse)
    (ex : Exc) (ack : PushClientAppOutputsResponse) :
  let stub := servicer env supernode in
  let load_client_app_fn := get_load_client_app_fn env "" None true None in
  let message := message_from_proto (res_message res) in
  let context := context_from_proto (res_context res) in
  let run := run_from_proto (res_run res) in
  let attempt := load_and_execute load_client_app_fn run message context in
  let push :=
    {| push_token := t;
       push_message_proto :=
         message_to_proto
           (create_error_reply (message_after attempt)
              (error_of_exception ex));
       push_context_proto := context_to_proto (context_after attempt) |} in
  token_source stub fuel token n t ->
  PullClientAppInputs stub {| pull_token := t |} = Returned res ->
  outcome attempt = Raised ex ->
  isinstance ex Exception = true ->
  PushClientAppOutputs stub push = Returned ack ->
  process env fuel supernode token =
    (Returns tt,
     [CreateChannel supernode true; Subscribe] ++ poll_events n
       ++ [CallPullClientAppInputs {| pull_token := t |};
           Log ERROR "ClientApp raised an exception";
           CallPushClientAppOutputs push; ChannelClose]).
Proof.
  intros stub load_client_app_fn message context run attempt push
    Hsrc Hpull Hout HE Hpush.
  rewrite (process_fetched env fuel supernode token n t res Hsrc Hpull).
  cbv zeta. fold load_client_app_fn run message context.
  rewrite (callback_executor_caught _ run message context ex Hout HE).
  cbn [fst snd trace]. fold attempt push stub. rewrite Hpush.
  now rewrite <- !app_assoc.
Qed.

(** ** Failures outside the boundary *)

(** X4: an exception out of [GetToken], the pull or the push that is
    neither a [KeyboardInterrupt] nor a [grpc.RpcError] propagates out of
    [run_clientapp] unchanged, even when it is an ordinary [Exception]:
    it is not logged and never answered with an error reply, no call is
    repeated, and the channel is closed before it propagates. *)
Theorem other_failure_propagates (env : Env) (fuel : nat)
    (supernode : string) (token : option Z) (ex : Exc) :
  let stub := servicer env supernode in
  isinstance ex KeyboardInterrupt = false ->
  isinstance ex RpcError = false ->
  (forall k : nat,
     token = None -> polls_fail_from stub 0 k ex -> k < fuel ->
     process env fuel supernode token =
       (Raises ex,
        [CreateChannel supernode true; Subscribe] ++ poll_events (S k)
          ++ [ChannelClose]))
  /\ (forall (n : nat) (t : Z),
        token_source stub fuel token n t ->
        PullClientAppInputs stub {| pull_token := t |} = Raised ex ->
        process env fuel supernode token =
          (Raises ex,
           [CreateChannel supernode true; Subscribe] ++ poll_events n
             ++ [CallPullClientAppInputs {| pull_token := t |};
                 ChannelClose]))
  /\ (forall (n : nat) (t : Z) (res : PullClientAppInputsResponse)
        (reply_message : Message) (context : Context),
        let r :=
          callback_executor (get_load_client_app_fn env "" None true None)
            (run_from_proto (res_run res))
            (message_from_proto (res_message res))
            (context_from_proto (res_context res)) initial in
        let push :=
          {| push_token := t;
             push_message_proto := message_to_proto reply_message;
             push_context_proto := context_to_proto context |} in
        token_source stub fuel token n t ->
        PullClientAppInputs stub {| pull_token := t |} = Returned res ->
        fst r = Returns (reply_message, context) ->
        PushClientAppOutputs stub push = Raised ex ->
        process env fuel supernode token =
          (Raises ex,
           [CreateChannel supernode true; Subscribe] ++ poll_events n
             ++ [CallPullClientAppInputs {| pull_token := t |}]
             ++ trace (snd r)
             ++ [CallPushClientAppOutputs push; ChannelClose])).
Proof.
  cbv zeta. intros Hki Hrpc.
  assert (Hout : exit_outcome ex = Raises ex).
  { unfold exit_outcome. now rewrite Hki, Hrpc. }
  assert (Hlog : exit_log ex = []).
  { unfold exit_log. now rewrite Hki, Hrpc. }
  split; [| split].
  - intros k -> Hp Hk. rewrite process_of_try.
    unfold tried, run_clientapp_try, connect, bind. simpl server_address.
    rewrite (while_token_fails _ k 0 fuel ex); auto.
    cbn [trace]. now rewrite Hout, Hlog, <- !app_assoc.
  - intros n t Hsrc Hpull. rewrite process_of_try.
    unfold tried, run_clientapp_try, connect, bind. simpl server_address.
    rewrite (while_token_source _ fuel token n t); auto.
    rewrite run_clientapp_with_token_eq. cbv zeta. rewrite Hpull.
    cbn [trace]. now rewrite Hout, Hlog, <- !app_assoc.
  - intros n t res reply_message context Hsrc Hpull Hexec Hpush.
    rewrite (process_fetched env fuel supernode token n t res Hsrc Hpull).
    cbv zeta. rewrite Hexec, Hpush, Hout, Hlog.
    now rewrite <- !app_assoc.
Qed.

(** ** The order of the remote calls *)

(** From the pull on: one pull first, then at most one push, under the
    same token, and no [GetToken] call. *)
Lemma run_clientapp_with_token_calls (env : Env) (stub : ClientAppIoStub)
    (t : Z) (st : State) :
  exists body,
    trace (snd (run_clientapp_with_token env stub t st)) =
      trace st ++ CallPullClientAppInputs {| pull_token := t |} :: body
    /\ get_token_count body = 0 /\ pulls body = []
    /\ (pushes body = []
        \/ exists push, pushes body = [push] /\ push_token push = t).
Proof.
  rewrite run_clientapp_with_token_eq. cbv zeta.
  destruct (PullClientAppInputs stub {| pull_token := t |}) as [res | ex].
  - destruct (callback_executor_quiet
                (get_load_client_app_fn env "" None true None)
                (run_from_proto (res_run res))
                (message_from_proto (res_message res))
                (context_from_proto (res_context res)))
      as [Hnd [Hpl [Hps [Hg Hc]]]].
    destruct (callback_executor _ _ _ _ initial)
      as [[[reply ctx] | ex |] s0]; cbn [fst snd] in *.
    + match goal with
      | |- context [CallPushClientAppOutputs ?p] =>
          exists (trace s0 ++ [CallPushClientAppOutputs p]);
          assert (Hps' :
            pushes (trace s0 ++ [CallPushClientAppOutputs p]) = [p])
            by (rewrite pushes_app, Hps; reflexivity)
      end.
      split.
      * destruct (PushClientAppOutputs stub _); cbn [snd trace];
          now rewrite <- !app_assoc.
      * rewrite get_token_count_app, pulls_app, Hg, Hpl.
        repeat split; try reflexivity.
        right. eexists. split; [exact Hps' | reflexivity].
    + exists (trace s0). cbn [snd trace]. rewrite <- !app_assoc.
      repeat split; auto.
    + contradiction.
  - exists []. cbn [snd trace]. repeat split; auto.
Qed.

(** X6: in every run, aborted or not, the remote calls come in the order
    of the protocol.  After channel creation and subscription come the
    [GetToken] calls (none when a token was given), then at most one pull,
    then at most one push, which carries the token of the pull; a push is
    never made without a pull before it, and [GetToken] is never called
    once the pull was made. *)
Theorem remote_calls_in_protocol_order (env : Env) (fuel : nat)
    (supernode : string) (token : option Z) :
  exists (n : nat) (rest : list Event),
    snd (process env fuel supernode token) =
      [CreateChannel supernode true; Subscribe] ++ poll_events n ++ rest
    /\ get_token_count rest = 0
    /\ match token with Some _ => n = 0 | None => True end
    /\ ((pulls rest = [] /\ pushes rest = [])
        \/ exists (t : Z) (body : list Event),
             rest = CallPullClientAppInputs {| pull_token := t |} :: body
             /\ pulls body = []
             /\ match token with Some t0 => t = t0 | None => True end
             /\ (pushes body = []
                 \/ exists push,
                      pushes body = [push] /\ push_token push = t)).
Proof.
  rewrite process_of_try.
  unfold tried, run_clientapp_try, connect, bind. simpl server_address.
  match goal with
  | |- context [while_token_is_None fuel ?stub token ?s] =>
      destruct (while_token_shape stub fuel token s) as [n [Hs Hf]];
      destruct (while_token_is_None fuel stub token s) as [[t | ex |] st']
  end; cbn [fst snd] in *; subst st'; cbn [trace get_token_calls] in *.
  - match goal with
    | |- context [run_clientapp_with_token env ?stub t ?s] =>
        destruct (run_clientapp_with_token_calls env stub t s)
          as [body [Htr [Hg [Hpl Hps]]]];
        destruct (run_clientapp_with_token env stub t s) as [[[] | ex |] st]
    end; cbn [fst snd trace] in *; rewrite Htr.
    + exists n, (CallPullClientAppInputs {| pull_token := t |}
                   :: body ++ [ChannelClose]).
      rewrite <- !app_assoc. split; [reflexivity |].
      rewrite get_token_count_cons, get_token_count_app, Hg.
      split; [reflexivity |].
      split; [destruct token; tauto |].
      right. exists t, (body ++ [ChannelClose]).
      rewrite pulls_app, pushes_app, Hpl, !app_nil_r.
      repeat split; auto. destruct token; tauto.
    + exists n, (CallPullClientAppInputs {| pull_token := t |}
                   :: body ++ exit_log ex ++ [ChannelClose]).
      rewrite <- !app_assoc. split; [reflexivity |].
      rewrite get_token_count_cons, !get_token_count_app,
        get_token_count_exit_log, Hg.
      split; [reflexivity |].
      split; [destruct token; tauto |].
      right. exists t, (body ++ exit_log ex ++ [ChannelClose]).
      rewrite !pulls_app, !pushes_app, Hpl, pushes_exit_log, !app_nil_r.
      assert (Hpe : pulls (exit_log ex) = []).
      { unfold exit_log.
        destruct (isinstance ex KeyboardInterrupt), (isinstance ex RpcError);
          reflexivity. }
      rewrite Hpe. repeat split; auto. destruct token; tauto.
    + exists n, (CallPullClientAppInputs {| pull_token := t |} :: body).
      rewrite <- !app_assoc. split; [reflexivity |].
      rewrite get_token_count_cons, Hg.
      split; [reflexivity |].
      split; [destruct token; tauto |].
      right. exists t, body. repeat split; auto. destruct token; tauto.
  - exists n, (exit_log ex ++ [ChannelClose]).
    rewrite <- !app_assoc. split; [reflexivity |].
    rewrite get_token_count_app, get_token_count_exit_log.
    split; [reflexivity |].
    split; [destruct token; tauto |].
    left. rewrite pushes_app, pushes_exit_log.
    unfold exit_log.
    destruct (isinstance ex KeyboardInterrupt), (isinstance ex RpcError);
      split; reflexivity.
  - exists n, []. rewrite app_nil_r.
    repeat split; auto. destruct token; tauto.
Qed.

(** ** The polling loop without a bound *)

Lemma while_token_all_none (stub : ClientAppIoStub) (fuel : nat) :
  forall (c : nat) (st : State),
    (forall i, i < fuel -> answers_none (GetToken stub (c + i)) = true) ->
    get_token_calls st = c ->
    while_token_is_None fuel stub None st =
    (Diverges, {| trace := trace st ++ poll_events fuel;
                  get_token_calls := c + fuel |}).
Proof.
  induction fuel as [| fuel IH]; intros c st Hall Hc.
  - simpl. unfold diverge. rewrite app_nil_r, Nat.add_0_r.
    destruct st. simpl in Hc. now subst.
  - simpl while_token_is_None. unfold bind. rewrite get_token_eq. cbv zeta.
    rewrite Hc. pose proof (Hall 0 (Nat.lt_0_succ fuel)) as H0.
    rewrite Nat.add_0_r in H0.
    destruct (GetToken stub c) as [[[t |]] | ex]; simpl in H0;
      try discriminate.
    cbn [res_token]. rewrite (IH (S c)).
    + cbn [trace]. rewrite <- app_assoc. simpl. do 3 f_equal. lia.
    + intros i Hi. replace (S c + i) with (c + S i) by lia.
      apply Hall. lia.
    + reflexivity.
Qed.

(** X7: the poll for a token has no bound of its own.  As long as the
    SuperNode answers "no token yet", a process started without a token
    does nothing but call [GetToken]: after any number of iterations it
    has made that many calls, no pull, no push, and has not closed the
    channel. *)
Theorem polls_as_long_as_no_token (env : Env) (supernode : string)
    (fuel : nat) :
  (forall i, i < fuel ->
     answers_none (GetToken (servicer env supernode) i) = true) ->
  process env fuel supernode None =
    (Diverges,
     [CreateChannel supernode true; Subscribe] ++ poll_events fuel).
Proof.
  intro Hall. rewrite process_of_try.
  unfold tried, run_clientapp_try, connect, bind. simpl server_address.
  now rewrite (while_token_all_none _ fuel 0).
Qed.

(** More fuel changes nothing once the loop has ended. *)
Lemma while_token_more_fuel (stub : ClientAppIoStub) (fuel : nat) :
  forall (token : option Z) (st : State) (fuel' : nat),
    fst (while_token_is_None fuel stub token st) <> Diverges ->
    fuel <= fuel' ->
    while_token_is_None fuel' stub token st =
    while_token_is_None fuel stub token st.
Proof.
  induction fuel as [| fuel IH]; intros [t |] st fuel' Hend Hle;
    try (now rewrite !while_token_Some).
  - simpl in Hend. now contradiction Hend.
  - destruct fuel' as [| fuel']; [lia |].
    simpl while_token_is_None in *. unfold bind in *.
    destruct (get_token stub st) as [[tok | ex |] st']; try reflexivity.
    apply IH; [exact Hend | lia].
Qed.

(** The bound on the polling loop is an artefact of the model only: a run
    that ends within some number of iterations has the same outcome and
    the same events under every larger bound. *)
Lemma ended_run_independent_of_bound (env : Env) (fuel fuel' : nat)
    (supernode : string) (token : option Z) :
  fst (process env fuel supernode token) <> Diverges ->
  fuel <= fuel' ->
  process env fuel' supernode token = process env fuel supernode token.
Proof.
  intros Hend Hle. rewrite !process_of_try in *.
  unfold tried, run_clientapp_try, connect, bind in *.
  simpl server_address in *.
  match goal with
  | |- context [while_token_is_None fuel ?stub token ?s] =>
      rewrite (while_token_more_fuel stub fuel token s fuel');
      [reflexivity | | exact Hle];
      destruct (while_token_is_None fuel stub token s) as [[t | ex |] st']
  end; cbn [fst] in *; try discriminate.
  now contradiction Hend.
Qed.

(** ** The context on the wire *)

(** X8: if the context conversions round-trip
    ([context_to_proto (context_from_proto c) = c]), a reply that comes
    out of a block which left the context object as it was fetched (a
    failed load, or a callback that does not touch it) carries on the wire
    exactly the context that was pulled. *)
Theorem untouched_context_round_trip (env : Env) (fuel : nat)
    (supernode : string) (token : option Z) (n : nat) (t : Z)
    (res : PullClientAppInputsResponse) (reply_message : Message)
    (context' : Context) :
  let stub := servicer env supernode in
  let load_client_app_fn := get_load_client_app_fn env "" None true None in
  let message := message_from_proto (res_message res) in
  let context := context_from_proto (res_context res) in
  let run := run_from_proto (res_run res) in
  let attempt := load_and_execute load_client_app_fn run message context in
  (forall c, context_to_proto (context_from_proto c) = c) ->
  token_source stub fuel token n t ->
  PullClientAppInputs stub {| pull_token := t |} = Returned res ->
  context_after attempt = context ->
  fst (callback_executor load_client_app_fn run message context initial)
    = Returns (reply_message, context') ->
  pushes (snd (process env fuel supernode token)) =
    [{| push_token := t;
        push_message_proto := message_to_proto reply_message;
        push_context_proto := res_context res |}].
Proof.
  intros stub load_client_app_fn message context run attempt Hrt Hsrc Hpull
    Hctx Hexec.
  assert (Hc : context' = context).
  { revert Hexec. unfold callback_executor. fold attempt.
    destruct (outcome attempt) as [reply | ex].
    - unfold ret. cbn [fst]. intro H. injection H as _ <-. exact Hctx.
    - destruct (isinstance ex Exception).
      + unfold bind, log, emit, ret. cbn [fst]. intro H.
        injection H as _ <-. exact Hctx.
      + unfold raise. cbn [fst]. discriminate. }
  rewrite (pushes_of_reply env fuel supernode token n t res reply_message
             context' Hsrc Hpull Hexec).
  subst context'. unfold context. now rewrite Hrt.
Qed.

(** ** Interruption *)

(** X9: a [KeyboardInterrupt] ends the run in the same orderly way at
    every point where the driver has handed control away: out of
    [GetToken], out of the pull, out of resolution or the callback, and
    out of the push.  The run logs "Closing connection" at [INFO], closes
    the channel and returns; it writes no error line, repeats no call and
    pushes nothing after the interrupt. *)
Theorem interrupt_is_orderly (env : Env) (fuel : nat) (supernode : string)
    (token : option Z) (ex : Exc) :
  let stub := servicer env supernode in
  isinstance ex KeyboardInterrupt = true ->
  (forall k : nat,
     token = None -> polls_fail_from stub 0 k ex -> k < fuel ->
     process env fuel supernode token =
       (Returns tt,
        [CreateChannel supernode true; Subscribe] ++ poll_events (S k)
          ++ [Log INFO "Closing connection"; ChannelClose]))
  /\ (forall (n : nat) (t : Z),
        token_source stub fuel token n t ->
        PullClientAppInputs stub {| pull_token := t |} = Raised ex ->
        process env fuel supernode token =
          (Returns tt,
           [CreateChannel supernode true; Subscribe] ++ poll_events n
             ++ [CallPullClientAppInputs {| pull_token := t |};
                 Log INFO "Closing connection"; ChannelClose]))
  /\ (forall (n : nat) (t : Z) (res : PullClientAppInputsResponse),
        token_source stub fuel token n t ->
        PullClientAppInputs stub {| pull_token := t |} = Returned res ->
        outcome
          (load_and_execute (get_load_client_app_fn env "" None true None)
             (run_from_proto (res_run res))
             (message_from_proto (res_message res))
             (context_from_proto (res_context res))) = Raised ex ->
        isinstance ex Exception = false ->
        process env fuel supernode token =
          (Returns tt,
           [CreateChannel supernode true; Subscribe] ++ poll_events n
             ++ [CallPullClientAppInputs {| pull_token := t |};
                 Log INFO "Closing connection"; ChannelClose]))
  /\ (forall (n : nat) (t : Z) (res : PullClientAppInputsResponse)
        (reply_message : Message) (context : Context),
        let r :=
          callback_executor (get_load_client_app_fn env "" None true None)
            (run_from_proto (res_run res))
            (message_from_proto (res_message res))
            (context_from_proto (res_context res)) initial in
        let push :=
          {| push_token := t;
             push_message_proto := message_to_proto reply_message;
             push_context_proto := context_to_proto context |} in
        token_source stub fuel token n t ->
        PullClientAppInputs stub {| pull_token := t |} = Returned res ->
        fst r = Returns (reply_message, context) ->
        PushClientAppOutputs stub push = Raised ex ->
        process env fuel supernode token =
          (Returns tt,
           [CreateChannel supernode true; Subscribe] ++ poll_events n
             ++ [CallPullClientAppInputs {| pull_token := t |}]
             ++ trace (snd r)
             ++ [CallPushClientAppOutputs push;
                 Log INFO "Closing connection"; ChannelClose])).
Proof.
  cbv zeta. intro Hki.
  assert (Hout : exit_outcome ex = Returns tt).
  { unfold exit_outcome. now rewrite Hki. }
  assert (Hlog : exit_log ex = [Log INFO "Closing connection"]).
  { unfold exit_log. now rewrite Hki. }
  split; [| split; [| split]].
  - intros k -> Hp Hk. rewrite process_of_try.
    unfold tried, run_clientapp_try, connect, bind. simpl server_address.
    rewrite (while_token_fails _ k 0 fuel ex); auto.
    cbn [trace]. now rewrite Hout, Hlog, <- !app_assoc.
  - intros n t Hsrc Hpull. rewrite process_of_try.
    unfold tried, run_clientapp_try, connect, bind. simpl server_address.
    rewrite (while_token_source _ fuel token n t); auto.
    rewrite run_clientapp_with_token_eq. cbv zeta. rewrite Hpull.
    cbn [trace]. now rewrite Hout, Hlog, <- !app_assoc.
  - intros n t res Hsrc Hpull Hraised HE.
    destruct (process_of_escape env fuel supernode token n t res ex
                Hsrc Hpull) as [Hp _].
    + now apply callback_executor_escapes.
    + now rewrite Hp, Hout, Hlog.
  - intros n t res reply_message context Hsrc Hpull Hexec Hpush.
    rewrite (process_fetched env fuel supernode token n t res Hsrc Hpull).
    cbv zeta. rewrite Hexec, Hpush, Hout, Hlog.
    now rewrite <- !app_assoc.
Qed.

(** * The driver with helpers that may raise *)

(** When every helper returns, the primed driver is the driver above. *)
Lemma process'_plain_world (env : Env) (fuel : nat) (supernode : string)
    (token : option Z) :
  process' (plain_world env) fuel supernode token =
  process env fuel supernode token.
Proof. reflexivity. Qed.

Lemma callback_executor'_eq (w : World) (load_client_app_fn : LoadClientAppFn)
    (run : Run) (message : Message) (context : Context) (st : State) :
  let attempt := load_and_execute load_client_app_fn run message context in
  callback_executor' w load_client_app_fn run message context st =
  match outcome attempt with
  | Returned reply_message =>
      (Returns (reply_message, context_after attempt), st)
  | Raised ex =>
      if isinstance ex Exception then
        match str' w ex with
        | Returned text =>
            (Returns
               (create_error_reply (message_after attempt)
                  (error_of_exception' ex text),
                context_after attempt),
             {| trace := trace st ++ [Log ERROR "ClientApp raised an exception"];
                get_token_calls := get_token_calls st |})
        | Raised ex' => (Raises ex', st)
        end
      else (Raises ex, st)
  end.
Proof.
  cbv zeta. unfold callback_executor'.
  destruct (outcome (load_and_execute load_client_app_fn run message context))
    as [reply | ex]; [reflexivity |].
  destruct (isinstance ex Exception); [| reflexivity].
  unfold bind, lift. destruct (str' w ex); reflexivity.
Qed.

(** The boundary pushes nothing itself. *)
Lemma callback_executor'_pushes (w : World)
    (load_client_app_fn : LoadClientAppFn)
    (run : Run) (message : Message) (context : Context) (st : State) :
  pushes
    (trace (snd (callback_executor' w load_client_app_fn run message context
                   st)))
  = pushes (trace st).
Proof.
  rewrite callback_executor'_eq. cbv zeta.
  destruct (outcome (load_and_execute load_client_app_fn run message context))
    as [reply | ex]; [reflexivity |].
  destruct (isinstance ex Exception); [| reflexivity].
  destruct (str' w ex); [| reflexivity].
  cbn [snd trace]. rewrite pushes_app. simpl. now rewrite app_nil_r.
Qed.

(** The body of the outer [try] once the WorkUnit has been fetched. *)
Lemma tried'_fetched (w : World) (fuel : nat) (supernode : string)
    (token : option Z) (n : nat) (t : Z)
    (message : Message) (context : Context) (run : Run) :
  let stub := servicer (world_env w) supernode in
  fetched w fuel supernode token n t message context run ->
  tried' w fuel supernode token =
  match
    callback_executor' w
      (get_load_client_app_fn (world_env w) "" None true None)
      run message context
      {| trace :=
           [CreateChannel supernode true; Subscribe] ++ poll_events n
             ++ [CallPullClientAppInputs {| pull_token := t |}];
         get_token_calls := n |}
  with
  | (Returns (reply_message, context'), st) =>
      match message_to_proto' w reply_message with
      | Raised ex => (Raises ex, st)
      | Returned proto_message =>
          match context_to_proto' w context' with
          | Raised ex => (Raises ex, st)
          | Returned proto_context =>
              let push :=
                {| push_token := t;
                   push_message_proto := proto_message;
                   push_context_proto := proto_context |} in
              let st' :=
                {| trace := trace st ++ [CallPushClientAppOutputs push];
                   get_token_calls := get_token_calls st |} in
              match PushClientAppOutputs stub push with
              | Returned _ => (Returns tt, st')
              | Raised ex => (Raises ex, st')
              end
          end
      end
  | (Raises ex, st) => (Raises ex, st)
  | (Diverges, st) => (Diverges, st)
  end.
Proof.
  intros stub [_ [_ [Hsrc [res [Hpull [Hm [Hc Hr]]]]]]]. subst stub.
  unfold tried', run_clientapp_try', connect, bind. simpl server_address.
  rewrite (while_token_source _ fuel token n t); auto.
  unfold run_clientapp_with_token', pull_message', push_message',
    stub_PullClientAppInputs, stub_PushClientAppOutputs, bind, emit, lift,
    ret, raise.
  cbn [trace get_token_calls].
  rewrite Hpull, Hm, Hc, Hr. rewrite <- !app_assoc.
  destruct (callback_executor' _ _ _ _ _ _) as [[[reply ctx] | ex |] st];
    try reflexivity.
  destruct (message_to_proto' w reply); [| reflexivity].
  destruct (context_to_proto' w ctx); [| reflexivity].
  cbv zeta. destruct (PushClientAppOutputs _ _); reflexivity.
Qed.

(** Around the body: what the [except] clauses and the [finally] clause
    add.  They push nothing. *)
Lemma process'_pushes (w : World) (fuel : nat) (supernode : string)
    (token : option Z) :
  create_channel_outcome w supernode true = Returned tt ->
  subscribe_outcome w = Returned tt ->
  pushes (snd (process' w fuel supernode token)) =
  pushes (trace (snd (tried' w fuel supernode token))).
Proof.
  intros Hcreate Hsub.
  unfold process', tried', run_clientapp', create_channel',
    channel_subscribe', channel_close', try_finally, try_except, bind, emit,
    lift, ret, raise.
  cbn [trace get_token_calls initial]. rewrite Hcreate, Hsub.
  cbn [app].
  destruct (run_clientapp_try' _ _ _ _ _) as [[[] | ex |] st];
    cbn [fst snd trace]; try reflexivity.
  - destruct (close_outcome w); cbn [snd trace];
      rewrite pushes_app; simpl; now rewrite app_nil_r.
  - unfold run_clientapp_except', bind, log, emit, lift, ret, raise.
    destruct (isinstance ex KeyboardInterrupt).
    + cbn [trace]. destruct (close_outcome w); cbn [snd trace];
        rewrite !pushes_app; simpl; now rewrite !app_nil_r.
    + destruct (isinstance ex RpcError).
      * destruct (str' w ex); cbn [trace];
          destruct (close_outcome w); cbn [snd trace];
          rewrite !pushes_app; simpl; now rewrite ?app_nil_r.
      * destruct (close_outcome w); cbn [snd trace];
          rewrite pushes_app; simpl; now rewrite app_nil_r.
Qed.

(** The same, event by event, when the close returns and no
    [grpc.RpcError] is involved. *)
Lemma process'_of_tried (w : World) (fuel : nat) (supernode : string)
    (token : option Z) :
  create_channel_outcome w supernode true = Returned tt ->
  subscribe_outcome w = Returned tt ->
  close_outcome w = Returned tt ->
  match tried' w fuel supernode token with
  | (Returns _, st) =>
      process' w fuel supernode token =
        (Returns tt, trace st ++ [ChannelClose])
  | (Raises ex, st) =>
      isinstance ex RpcError = false ->
      process' w fuel supernode token =
        (exit_outcome ex, trace st ++ exit_log ex ++ [ChannelClose])
  | (Diverges, st) =>
      process' w fuel supernode token = (Diverges, trace st)
  end.
Proof.
  intros Hcreate Hsub Hclose.
  unfold process', tried', run_clientapp', create_channel',
    channel_subscribe', channel_close', try_finally, try_except, bind, emit,
    lift, ret, raise.
  cbn [trace get_token_calls initial]. rewrite Hcreate, Hsub, Hclose.
  cbn [app].
  destruct (run_clientapp_try' _ _ _ _ _) as [[[] | ex |] st];
    cbn [fst snd trace]; try reflexivity.
  intro Hrpc.
  unfold run_clientapp_except', exit_outcome, exit_log, log, emit.
  rewrite Hrpc.
  destruct (isinstance ex KeyboardInterrupt); cbn [snd trace];
    [now rewrite <- app_assoc | reflexivity].
Qed.

(** What is pushed once the boundary has yielded a reply that converts. *)
Lemma pushes'_of_reply (w : World) (fuel : nat) (supernode : string)
    (token : option Z) (n : nat) (t : Z)
    (message : Message) (context : Context) (run : Run)
    (reply_message : Message) (context' : Context)
    (proto_message : ProtoMessage) (proto_context : ProtoContext) :
  fetched w fuel supernode token n t message context run ->
  (forall st,
     fst (callback_executor' w
            (get_load_client_app_fn (world_env w) "" None true None)
            run message context st) = Returns (reply_message, context')) ->
  message_to_proto' w reply_message = Returned proto_message ->
  context_to_proto' w context' = Returned proto_context ->
  pushes (snd (process' w fuel supernode token)) =
    [{| push_token := t;
        push_message_proto := proto_message;
        push_context_proto := proto_context |}].
Proof.
  intros Hf Hexec Hm Hc.
  destruct Hf as [Hcreate [Hsub Hrest]].
  rewrite (process'_pushes w fuel supernode token Hcreate Hsub).
  rewrite (tried'_fetched w fuel supernode token n t message context run
             (conj Hcreate (conj Hsub Hrest))).
  match goal with
  | |- context [callback_executor' w ?l run message context ?s] =>
      pose proof (Hexec s) as He;
      pose proof (callback_executor'_pushes w l run message context s) as Hq;
      destruct (callback_executor' w l run message context s)
        as [[[reply ctx] | ex |] st]
  end; cbn [fst snd] in *; try discriminate.
  injection He as -> ->. rewrite Hm, Hc. cbv zeta.
  destruct (PushClientAppOutputs _ _); cbn [snd trace];
    rewrite pushes_app, Hq; cbn [trace];
    rewrite !pushes_app, pushes_poll_events; reflexivity.
Qed.

(** C1 (amended): once a WorkUnit has been fetched, if whatever callback
    resolution or callback invocation raises is an instance of
    [Exception] whose [str()] returns, the boundary does not raise: it
    yields a reply message, which is the output of the callback or the
    error reply built by [create_error_reply], together with the context
    as the block leaves it; and when that reply and context convert to the
    wire, the driver pushes exactly them under the token. *)
Theorem fault_boundary_converts_Exception (w : World) (fuel : nat)
    (supernode : string) (token : option Z) (n : nat) (t : Z)
    (message : Message) (context : Context) (run : Run) :
  let load_client_app_fn :=
    get_load_client_app_fn (world_env w) "" None true None in
  let attempt := load_and_execute load_client_app_fn run message context in
  fetched w fuel supernode token n t message context run ->
  (forall ex,
     outcome attempt = Raised ex ->
     isinstance ex Exception = true
     /\ exists text, str' w ex = Returned text) ->
  exists reply_message : Message,
    (forall st,
       fst (callback_executor' w load_client_app_fn run message context st)
         = Returns (reply_message, context_after attempt))
    /\ (outcome attempt = Returned reply_message
        \/ exists ex text,
             outcome attempt = Raised ex
             /\ str' w ex = Returned text
             /\ reply_message =
                  create_error_reply (message_after attempt)
                    (error_of_exception' ex text))
    /\ (forall proto_message proto_context,
          message_to_proto' w reply_message = Returned proto_message ->
          context_to_proto' w (context_after attempt)
            = Returned proto_context ->
          pushes (snd (process' w fuel supernode token)) =
            [{| push_token := t;
                push_message_proto := proto_message;
                push_context_proto := proto_context |}]).
Proof.
  intros load_client_app_fn attempt Hf Hex.
  assert (Hce : exists reply_message,
    (forall st,
       fst (callback_executor' w load_client_app_fn run message context st)
         = Returns (reply_message, context_after attempt))
    /\ (outcome attempt = Returned reply_message
        \/ exists ex text,
             outcome attempt = Raised ex
             /\ str' w ex = Returned text
             /\ reply_message =
                  create_error_reply (message_after attempt)
                    (error_of_exception' ex text))).
  { destruct (outcome attempt) as [reply | ex] eqn:Hout.
    - exists reply. split; [| now left].
      intro st. rewrite callback_executor'_eq. cbv zeta.
      fold attempt. now rewrite Hout.
    - destruct (Hex ex eq_refl) as [HE [text Hs]].
      exists (create_error_reply (message_after attempt)
                (error_of_exception' ex text)).
      split; [| right; now exists ex, text].
      intro st. rewrite callback_executor'_eq. cbv zeta.
      fold attempt. now rewrite Hout, HE, Hs. }
  destruct Hce as [reply_message [Hexec Hwhat]].
  exists reply_message. split; [exact Hexec |]. split; [exact Hwhat |].
  intros proto_message proto_context Hm Hc.
  now apply (pushes'_of_reply w fuel supernode token n t message context run
               reply_message (context_after attempt)).
Qed.

(** C10 (amended): the boundary catches exactly the instances of
    [Exception].  For such an exception out of resolution or invocation
    whose [str()] returns, the error reply is built, and it is pushed when
    it and the context convert to the wire.  Any other exception leaves
    the boundary and nothing is pushed; the outer clauses then run, where
    a [KeyboardInterrupt] is logged at [INFO] and swallowed and anything
    else propagates, and the channel is closed. *)
Theorem boundary_catches_Exception_only (w : World) (fuel : nat)
    (supernode : string) (token : option Z) (n : nat) (t : Z)
    (message : Message) (context : Context) (run : Run) (ex : Exc) :
  let load_client_app_fn :=
    get_load_client_app_fn (world_env w) "" None true None in
  let attempt := load_and_execute load_client_app_fn run message context in
  fetched w fuel supernode token n t message context run ->
  outcome attempt = Raised ex ->
  (isinstance ex Exception = true ->
   forall text, str' w ex = Returned text ->
   let reply_message :=
     create_error_reply (message_after attempt)
       (error_of_exception' ex text) in
   (forall st,
      fst (callback_executor' w load_client_app_fn run message context st)
        = Returns (reply_message, context_after attempt))
   /\ (forall proto_message proto_context,
         message_to_proto' w reply_message = Returned proto_message ->
         context_to_proto' w (context_after attempt)
           = Returned proto_context ->
         pushes (snd (process' w fuel supernode token)) =
           [{| push_token := t;
               push_message_proto := proto_message;
               push_context_proto := proto_context |}]))
  /\ (isinstance ex Exception = false ->
      (forall st,
         fst (callback_executor' w load_client_app_fn run message context st)
           = Raises ex)
      /\ pushes (snd (process' w fuel supernode token)) = []
      /\ (close_outcome w = Returned tt ->
          process' w fuel supernode token =
            if isinstance ex KeyboardInterrupt then
              (Returns tt,
               [CreateChannel supernode true; Subscribe] ++ poll_events n
                 ++ [CallPullClientAppInputs {| pull_token := t |};
                     Log INFO "Closing connection"; ChannelClose])
            else
              (Raises ex,
               [CreateChannel supernode true; Subscribe] ++ poll_events n
                 ++ [CallPullClientAppInputs {| pull_token := t |};
                     ChannelClose]))).
Proof.
  intros load_client_app_fn attempt Hf Hout.
  split.
  - intros HE text Hs reply_message.
    assert (Hexec : forall st,
      fst (callback_executor' w load_client_app_fn run message context st)
        = Returns (reply_message, context_after attempt)).
    { intro st. rewrite callback_executor'_eq. cbv zeta.
      fold attempt. now rewrite Hout, HE, Hs. }
    split; [exact Hexec |].
    intros proto_message proto_context Hm Hc.
    now apply (pushes'_of_reply w fuel supernode token n t message context
                 run reply_message (context_after attempt)).
  - intro HE.
    assert (Hexec : forall st,
      callback_executor' w load_client_app_fn run message context st
        = (Raises ex, st)).
    { intro st. rewrite callback_executor'_eq. cbv zeta.
      fold attempt. now rewrite Hout, HE. }
    assert (Htried :
      tried' w fuel supernode token =
        (Raises ex,
         {| trace :=
              [CreateChannel supernode true; Subscribe] ++ poll_events n
                ++ [CallPullClientAppInputs {| pull_token := t |}];
            get_token_calls := n |})).
    { rewrite (tried'_fetched w fuel supernode token n t message context run
                 Hf).
      fold load_client_app_fn. now rewrite Hexec. }
    destruct Hf as [Hcreate [Hsub Hrest]].
    split; [| split].
    + intro st. now rewrite Hexec.
    + rewrite (process'_pushes w fuel supernode token Hcreate Hsub), Htried.
      cbn [snd trace]. rewrite !pushes_app, pushes_poll_events. reflexivity.
    + intro Hclose.
      pose proof (process'_of_tried w fuel supernode token Hcreate Hsub
                    Hclose) as Hp.
      rewrite Htried in Hp.
      assert (Hrpc : isinstance ex RpcError = false).
      { destruct (isinstance ex RpcError) eqn:Hr; [| reflexivity].
        apply RpcError_is_Exception in Hr. congruence. }
      rewrite (Hp Hrpc). cbn [trace]. unfold exit_outcome, exit_log.
      rewrite Hrpc.
      destruct (isinstance ex KeyboardInterrupt); now rewrite <- !app_assoc.
Qed.

Lemma operations_app (l1 l2 : list Event) :
  operations (l1 ++ l2) = operations l1 ++ operations l2.
Proof. apply filter_app. Qed.

Lemma operations_poll_events (n : nat) :
  operations (poll_events n) = repeat CallGetToken n.
Proof. induction n; simpl; [reflexivity | now f_equal]. Qed.

(** X2: when the channel is set up, the token is obtained, the pull and
    its conversions return, the loaded callback returns, its reply and the
    context convert, the push is acknowledged and the close returns, then
    [run_clientapp] returns, and the calls it made, log lines aside, are
    exactly: channel creation, subscription, the [GetToken] calls, one
    pull, one push of the converted reply and context, the close. *)
Theorem acknowledged_run (w : World) (fuel : nat) (supernode : string)
    (token : option Z) (n : nat) (t : Z)
    (message : Message) (context : Context) (run : Run)
    (client_app : ClientApp) (reply_message : Message)
    (proto_message : ProtoMessage) (proto_context : ProtoContext)
    (ack : PushClientAppOutputsResponse) :
  let stub := servicer (world_env w) supernode in
  let push :=
    {| push_token := t;
       push_message_proto := proto_message;
       push_context_proto := proto_context |} in
  fetched w fuel supernode token n t message context run ->
  get_load_client_app_fn (world_env w) "" None true None
    (fab_id run) (fab_version run) = Returned client_app ->
  outcome (client_app message context) = Returned reply_message ->
  message_to_proto' w reply_message = Returned proto_message ->
  context_to_proto' w (context_after (client_app message context))
    = Returned proto_context ->
  PushClientAppOutputs stub push = Returned ack ->
  close_outcome w = Returned tt ->
  fst (process' w fuel supernode token) = Returns tt
  /\ operations (snd (process' w fuel supernode token)) =
       [CreateChannel supernode true; Subscribe] ++ repeat CallGetToken n
         ++ [CallPullClientAppInputs {| pull_token := t |};
             CallPushClientAppOutputs push; ChannelClose].
Proof.
  intros stub push Hf Hload Hout Hm Hc Hpush Hclose.
  assert (Htried :
    tried' w fuel supernode token =
      (Returns tt,
       {| trace :=
            ([CreateChannel supernode true; Subscribe] ++ poll_events n
               ++ [CallPullClientAppInputs {| pull_token := t |}])
              ++ [CallPushClientAppOutputs push];
          get_token_calls := n |})).
  { rewrite (tried'_fetched w fuel supernode token n t message context run
               Hf).
    rewrite callback_executor'_eq. cbv zeta.
    unfold load_and_execute. rewrite Hload, Hout, Hm, Hc.
    fold push. fold stub. now rewrite Hpush. }
  destruct Hf as [Hcreate [Hsub _]].
  pose proof (process'_of_tried w fuel supernode token Hcreate Hsub Hclose)
    as Hp.
  rewrite Htried in Hp. cbv beta iota in Hp. rewrite Hp.
  cbn [fst snd trace]. split; [reflexivity |].
  rewrite !operations_app, operations_poll_events. unfold operations.
  simpl. now rewrite <- !app_assoc.
Qed.

End ClientAppProcess.

(** * Scenarios

    The theorems above at concrete inputs.  The payload types are strings,
    the context is a list of notes, and the wire types are the domain types
    themselves with the identity as conversion. *)

Arguments mkMessage {Metadata RecordSet} metadata content error.
Arguments mkPullResponse {ProtoMessage ProtoContext ProtoRun}.
Arguments mkPushRequest {ProtoMessage ProtoContext}.
Arguments CreateChannel {ProtoMessage ProtoContext}.
Arguments Subscribe {ProtoMessage ProtoContext}.
Arguments Log {ProtoMessage ProtoContext}.
Arguments CallGetToken {ProtoMessage ProtoContext}.
Arguments CallPullClientAppInputs {ProtoMessage ProtoContext}.
Arguments CallPushClientAppOutputs {ProtoMessage ProtoContext}.
Arguments ChannelClose {ProtoMessage ProtoContext}.
Arguments pulls {ProtoMessage ProtoContext}.
Arguments pushes {ProtoMessage ProtoContext}.
Arguments get_token_count {ProtoMessage ProtoContext}.
Arguments close_count {ProtoMessage ProtoContext}.
Arguments poll_events {ProtoMessage ProtoContext}.
Arguments create_error_reply {Metadata RecordSet}.
Arguments returning_app {Metadata RecordSet Context}.
Arguments raising_app {Metadata RecordSet Context}.
Arguments trace {ProtoMessage ProtoContext}.
Arguments initial {ProtoMessage ProtoContext}.
Arguments Presupplied {ProtoMessage ProtoContext ProtoRun}.
Arguments Polled {ProtoMessage ProtoContext ProtoRun}.
Arguments servicer {Metadata RecordSet Context ProtoMessage ProtoContext
  ProtoRun}.
Arguments GetToken {ProtoMessage ProtoContext ProtoRun}.
Arguments error {Metadata RecordSet}.
Arguments push_token {ProtoMessage ProtoContext}.
Arguments push_message_proto {ProtoMessage ProtoContext}.
Arguments operations {ProtoMessage ProtoContext}.

Abbreviation at_demo f :=
  (f string string (list string) (Message string string) (list string) Run
     (fun m : Message string string => m) (fun c : list string => c)
     (fun r : Run => r) (fun m : Message string string => m)
     (fun c : list string => c)).
Abbreviation demo_scenario :=
  (@scenario string string (list string) (Message string string)
     (list string) Run).
Abbreviation demo_process := (at_demo process).
Abbreviation at_types f :=
  (f string string (list string) (Message string string) (list string) Run).
Abbreviation demo_process' := (at_types process').
Abbreviation demo_plain_world := (at_demo plain_world).
Abbreviation demo_world_with := (at_demo world_with).
Abbreviation demo_tried := (at_demo tried).
Abbreviation demo_executor :=
  (@callback_executor string string (list string) (Message string string)
     (list string)).
Abbreviation demo_message :=
  {| metadata := "run 1: node 0 -> node 7";
     content := Some "fit"; error := None |}.
Abbreviation demo_context := ["round 3"]%list.
Abbreviation demo_run := {| fab_id := "flwr/demo"; fab_version := "1.0.0" |}.
Abbreviation demo_response :=
  {| res_message := demo_message;
     res_context := demo_context;
     res_run := demo_run |}.
Abbreviation demo_output :=
  {| metadata := "run 1: node 7 -> node 0";
     content := Some "weights"; error := None |}.

(** C4, witness (scenario A): token 7 given at start; the callback returns
    a message and adds a note to the context; one push carries both. *)
Lemma successful_reply_pushed_scenario_A :
  pushes
    (snd (demo_process
            (demo_scenario (null_then 0 7) (Returned demo_response)
               (Returned Ack)
               (Returned
                  (returning_app demo_output ["round 3"; "trained"]%list)))
            0 "127.0.0.1:9094" (Some 7%Z)))
  = [{| push_token := 7%Z;
        push_message_proto := demo_output;
        push_context_proto := ["round 3"; "trained"]%list |}]%list.
Proof.
  apply (at_demo successful_reply_pushed
           (demo_scenario (null_then 0 7) (Returned demo_response)
              (Returned Ack)
              (Returned
                 (returning_app demo_output ["round 3"; "trained"]%list)))
           0 "127.0.0.1:9094" (Some 7%Z) 0 7%Z demo_response
           (returning_app demo_output ["round 3"; "trained"]%list)
           demo_output);
    [constructor | reflexivity | reflexivity | reflexivity].
Defined.

(** C1, counterexample: the WorkUnit is fetched and the callback raises
    [KeyboardInterrupt].  The exception leaves the boundary, the outer
    clause logs it, and no reply is pushed. *)
Lemma fault_boundary_lets_KeyboardInterrupt_escape :
  let ex := {| exc_class := Known KeyboardInterrupt; exc_str := "" |} in
  let env :=
    demo_scenario (null_then 0 7) (Returned demo_response) (Returned Ack)
      (Returned (raising_app ex demo_context)) in
  fst (demo_executor (fun _ _ => Returned (raising_app ex demo_context))
         demo_run demo_message demo_context initial)
    = Raises ex
  /\ demo_process env 0 "127.0.0.1:9094" (Some 7%Z) =
       (Returns tt,
        [CreateChannel "127.0.0.1:9094" true; Subscribe;
         CallPullClientAppInputs {| pull_token := 7%Z |};
         Log INFO "Closing connection"; ChannelClose]%list)
  /\ pushes (snd (demo_process env 0 "127.0.0.1:9094" (Some 7%Z))) = []%list.
Proof. repeat split; reflexivity. Qed.

(** C2, witness (scenario D): the callback adds a note to the context and
    raises [ZeroDivisionError("division by zero")]. *)
Lemma invocation_failure_reason_scenario_D :
  let ex :=
    {| exc_class := Known ZeroDivisionError;
       exc_str := "division by zero" |} in
  let env :=
    demo_scenario (null_then 0 7) (Returned demo_response) (Returned Ack)
      (Returned (raising_app ex ["round 3"; "started"]%list)) in
  pushes (snd (demo_process env 0 "127.0.0.1:9094" (Some 7%Z))) =
    [{| push_token := 7%Z;
        push_message_proto :=
          {| metadata := "run 1: node 0 -> node 7";
             content := None;
             error :=
               Some {| code := CLIENT_APP_RAISED_EXCEPTION;
                       reason :=
                         "<class 'ZeroDivisionError'>:<'division by zero'>" |}
          |};
        push_context_proto := ["round 3"; "started"]%list |}]%list.
Proof.
  intros ex env.
  refine (proj2 (at_demo invocation_failure_reason env 0 "127.0.0.1:9094"
                   (Some 7%Z) 0 7%Z demo_response
                   (raising_app ex ["round 3"; "started"]%list) ex
                   _ _ _ _ _));
    [constructor | reflexivity | reflexivity | reflexivity | reflexivity].
Defined.

(** C3, counterexample.  Scenario C: callback resolution raises
    [FileNotFoundError("app.toml missing")], which is no
    [LoadClientAppError]; the reply has the code
    [CLIENT_APP_RAISED_EXCEPTION] and a reason with the text of the
    exception.  And when resolution does raise a [LoadClientAppError], the
    fixed reason ends in "load `ClientApp`", not in "load the
    application". *)
Lemma load_failure_not_by_step_nor_that_text :
  let pushed_errors env :=
    map (fun req => error (push_message_proto req))
      (pushes (snd (demo_process env 0 "127.0.0.1:9094" (Some 7%Z)))) in
  let resolution_raises ex :=
    demo_scenario (null_then 0 7) (Returned demo_response) (Returned Ack)
      (Raised ex) in
  pushed_errors
    (resolution_raises
       {| exc_class := Known FileNotFoundError;
          exc_str := "app.toml missing" |})
    = [Some {| code := CLIENT_APP_RAISED_EXCEPTION;
               reason :=
                 "<class 'FileNotFoundError'>:<'app.toml missing'>" |}]%list
  /\ pushed_errors
       (resolution_raises
          {| exc_class := Known LoadClientAppError;
             exc_str := "Failed to load ClientApp" |})
     = [Some {| code := LOAD_CLIENT_APP_EXCEPTION;
                reason :=
                  "An exception was raised when attempting to load `ClientApp`"
             |}]%list
  /\ CLIENT_APP_RAISED_EXCEPTION <> LOAD_CLIENT_APP_EXCEPTION
  /\ "An exception was raised when attempting to load `ClientApp`"
       <> "An exception was raised when attempting to load the application".
Proof. repeat split; try reflexivity; discriminate. Qed.

(** C3, witness: callback resolution raises a [LoadClientAppError]. *)
Lemma load_failure_reply_LoadClientAppError :
  let env :=
    demo_scenario (null_then 0 7) (Returned demo_response) (Returned Ack)
      (Raised {| exc_class := Known LoadClientAppError;
                 exc_str := "Failed to load ClientApp" |}) in
  pushes (snd (demo_process env 0 "127.0.0.1:9094" (Some 7%Z))) =
    [{| push_token := 7%Z;
        push_message_proto :=
          {| metadata := "run 1: node 0 -> node 7";
             content := None;
             error :=
               Some {| code := LOAD_CLIENT_APP_EXCEPTION;
                       reason :=
                         "An exception was raised when attempting to load `ClientApp`"
                    |} |};
        push_context_proto := demo_context |}]%list.
Proof.
  intro env.
  refine (proj2 (at_demo load_failure_reply env 0 "127.0.0.1:9094"
                   (Some 7%Z) 0 7%Z demo_response
                   {| exc_class := Known LoadClientAppError;
                      exc_str := "Failed to load ClientApp" |}
                   _ _ _ _));
    [constructor | reflexivity | reflexivity | reflexivity].
Defined.

(** C5, witness (scenario B): no token at start, [GetToken] answers "no
    token yet" twice and then 42; the body runs to its end. *)
Lemma one_pull_one_push_same_token_scenario_B :
  let env :=
    demo_scenario (null_then 2 42) (Returned demo_response) (Returned Ack)
      (Returned (returning_app demo_output demo_context)) in
  let events := snd (demo_process env 5 "127.0.0.1:9094" None) in
  exists t push,
    pulls events = [{| pull_token := t |}]%list
    /\ pushes events = [push]%list /\ push_token push = t
    /\ exists k, get_token_count events = S k /\
         GetToken (servicer env "127.0.0.1:9094") k =
           Returned {| res_token := Some t |}.
Proof.
  intros env events.
  apply (at_demo one_pull_one_push_same_token env 5 "127.0.0.1:9094" None).
  reflexivity.
Defined.

(** C6, witness (scenario B): three [GetToken] calls, then the pull with
    token 42. *)
Lemma token_gate_scenario_B :
  let env :=
    demo_scenario (null_then 2 42) (Returned demo_response) (Returned Ack)
      (Returned (returning_app demo_output demo_context)) in
  exists rest,
    snd (demo_process env 5 "127.0.0.1:9094" None) =
      ([CreateChannel "127.0.0.1:9094" true; Subscribe] ++ poll_events 3
         ++ CallPullClientAppInputs {| pull_token := 42%Z |} :: rest)%list
    /\ get_token_count rest = 0
    /\ get_token_count (snd (demo_process env 5 "127.0.0.1:9094" None)) = 3.
Proof.
  intro env.
  apply (proj1 (proj2 (at_demo token_gate_iff_no_token env 5
                         "127.0.0.1:9094")) 2 42%Z);
    [reflexivity | lia].
Defined.

(** C7, witness (scenario E): the push raises [grpc.RpcError]; the error
    is logged, the channel is closed and the run returns. *)
Lemma transport_failure_scenario_E :
  let ex :=
    {| exc_class := Known RpcError; exc_str := "StatusCode.UNAVAILABLE" |} in
  let env :=
    demo_scenario (null_then 0 7) (Returned demo_response) (Raised ex)
      (Returned (returning_app demo_output demo_context)) in
  let push :=
    {| push_token := 7%Z;
       push_message_proto := demo_output;
       push_context_proto := demo_context |} in
  demo_process env 0 "127.0.0.1:9094" (Some 7%Z) =
    (Returns tt,
     [CreateChannel "127.0.0.1:9094" true; Subscribe;
      CallPullClientAppInputs {| pull_token := 7%Z |};
      CallPushClientAppOutputs push;
      Log ERROR "GRPC error occurred: StatusCode.UNAVAILABLE";
      ChannelClose]%list)
  /\ pushes (snd (demo_process env 0 "127.0.0.1:9094" (Some 7%Z)))
     = [push]%list.
Proof.
  intros ex env push.
  apply (proj2 (proj2 (at_demo transport_failure_is_fatal env 0
                         "127.0.0.1:9094" (Some 7%Z) ex eq_refl))
           0 7%Z demo_response demo_output demo_context);
    [constructor | reflexivity | reflexivity | reflexivity].
Defined.

(** C8, witness: [KeyboardInterrupt] arrives during the pull; the run
    logs "Closing connection", closes the channel once and returns. *)
Lemma channel_closed_after_KeyboardInterrupt :
  let env :=
    demo_scenario (null_then 0 7)
      (Raised {| exc_class := Known KeyboardInterrupt; exc_str := "" |})
      (Returned Ack)
      (Returned (returning_app demo_output demo_context)) in
  let r := demo_process env 0 "127.0.0.1:9094" (Some 7%Z) in
  let body := demo_tried env 0 "127.0.0.1:9094" (Some 7%Z) in
  close_count (snd r) = 1
  /\ close_count (trace (snd body)) = 0
  /\ r = (Returns tt,
          (trace (snd body)
             ++ [Log INFO "Closing connection"; ChannelClose])%list).
Proof.
  intros env r body.
  apply (proj2 (at_demo channel_closed_once_on_every_exit env 0
                  "127.0.0.1:9094" (Some 7%Z))).
  vm_compute. discriminate.
Defined.

(** C9, witness: the callback itself raises a [LoadClientAppError]; the
    reply has the code and the fixed reason of a load failure, and the text
    of the exception is gone. *)
Lemma LoadClientAppError_out_of_the_callback :
  let ex :=
    {| exc_class := Known LoadClientAppError;
       exc_str := "nested app could not be loaded" |} in
  let env :=
    demo_scenario (null_then 0 7) (Returned demo_response) (Returned Ack)
      (Returned (raising_app ex demo_context)) in
  pushes (snd (demo_process env 0 "127.0.0.1:9094" (Some 7%Z))) =
    [{| push_token := 7%Z;
        push_message_proto :=
          {| metadata := "run 1: node 0 -> node 7";
             content := None;
             error :=
               Some {| code := LOAD_CLIENT_APP_EXCEPTION;
                       reason :=
                         "An exception was raised when attempting to load `ClientApp`"
                    |} |};
        push_context_proto := demo_context |}]%list.
Proof.
  intros ex env.
  refine (proj1 (at_demo classification_by_exception_type env 0
                   "127.0.0.1:9094" (Some 7%Z) 0 7%Z demo_response ex
                   _ _ _) _).
  - constructor.
  - reflexivity.
  - right. exists (raising_app ex demo_context). split; reflexivity.
  - reflexivity.
Defined.

(** X1, witness: [flwr-clientapp --supernode 127.0.0.1:9094 --token 42]
    against a SuperNode that serves the WorkUnit. *)
Lemma flwr_clientapp_with_token_42 :
  at_demo command
    (demo_scenario (null_then 0 7) (Returned demo_response) (Returned Ack)
       (Returned (returning_app demo_output demo_context)))
    0
    (Returned {| args_supernode := "127.0.0.1:9094";
                 args_token := Some 42%Z |})
  = (Returns tt,
     [Log INFO "Starting Flower ClientApp";
      Log DEBUG
        "Staring isolated `ClientApp` connected to SuperNode ClientAppIo at 127.0.0.1:9094 with the token 42";
      CreateChannel "127.0.0.1:9094" true; Subscribe;
      CallPullClientAppInputs {| pull_token := 42%Z |};
      CallPushClientAppOutputs
        {| push_token := 42%Z;
           push_message_proto := demo_output;
           push_context_proto := demo_context |};
      ChannelClose]%list).
Proof.
  rewrite (at_demo flwr_clientapp_then_run_clientapp). reflexivity.
Defined.

(** X3, witness: the callback's own gRPC call fails with [grpc.RpcError];
    the failure is answered with an error reply and the run returns. *)
Lemma RpcError_inside_the_callback :
  let ex :=
    {| exc_class := Known RpcError; exc_str := "StatusCode.UNAVAILABLE" |} in
  demo_process
    (demo_scenario (null_then 0 7) (Returned demo_response) (Returned Ack)
       (Returned (raising_app ex demo_context)))
    0 "127.0.0.1:9094" (Some 7%Z)
  = (Returns tt,
     [CreateChannel "127.0.0.1:9094" true; Subscribe;
      CallPullClientAppInputs {| pull_token := 7%Z |};
      Log ERROR "ClientApp raised an exception";
      CallPushClientAppOutputs
        {| push_token := 7%Z;
           push_message_proto :=
             {| metadata := "run 1: node 0 -> node 7";
                content := None;
                error :=
                  Some {| code := CLIENT_APP_RAISED_EXCEPTION;
                          reason :=
                            "<class 'grpc.RpcError'>:<'StatusCode.UNAVAILABLE'>"
                       |} |};
           push_context_proto := demo_context |};
      ChannelClose]%list).
Proof.
  intro ex.
  apply (at_demo caught_failure_run
           (demo_scenario (null_then 0 7) (Returned demo_response)
              (Returned Ack) (Returned (raising_app ex demo_context)))
           0 "127.0.0.1:9094" (Some 7%Z) 0 7%Z demo_response ex Ack);
    [constructor | reflexivity | reflexivity | reflexivity | reflexivity].
Defined.

(** X4, witness: the pull raises [ValueError]; it propagates after the
    close and nothing is pushed. *)
Lemma ValueError_out_of_the_pull :
  let ex := {| exc_class := Known ValueError; exc_str := "bad response" |} in
  demo_process
    (demo_scenario (null_then 0 7) (Raised ex) (Returned Ack)
       (Returned (returning_app demo_output demo_context)))
    0 "127.0.0.1:9094" (Some 7%Z)
  = (Raises ex,
     [CreateChannel "127.0.0.1:9094" true; Subscribe;
      CallPullClientAppInputs {| pull_token := 7%Z |}; ChannelClose]%list).
Proof.
  intro ex.
  apply (proj1 (proj2
           (at_demo other_failure_propagates
              (demo_scenario (null_then 0 7) (Raised ex) (Returned Ack)
                 (Returned (returning_app demo_output demo_context)))
              0 "127.0.0.1:9094" (Some 7%Z) ex eq_refl eq_refl))
           0 7%Z);
    [constructor | reflexivity].
Defined.

(** X7, witness: a SuperNode that never hands out a token, followed for
    three iterations. *)
Lemma three_polls_and_still_polling :
  demo_process
    (demo_scenario (fun _ => Returned {| res_token := None |})
       (Returned demo_response) (Returned Ack)
       (Returned (returning_app demo_output demo_context)))
    3 "127.0.0.1:9094" None
  = (Diverges,
     ([CreateChannel "127.0.0.1:9094" true; Subscribe]
        ++ poll_events 3)%list).
Proof.
  apply (at_demo polls_as_long_as_no_token
           (demo_scenario (fun _ => Returned {| res_token := None |})
              (Returned demo_response) (Returned Ack)
              (Returned (returning_app demo_output demo_context)))
           "127.0.0.1:9094" 3).
  intros i Hi. reflexivity.
Defined.

(** X8, witness: with the identity as conversion, a failed load sends
    back the context that was pulled. *)
Lemma pulled_context_pushed_back :
  let ex :=
    {| exc_class := Known ValueError; exc_str := "invalid app reference" |} in
  pushes
    (snd (demo_process
            (demo_scenario (null_then 0 7) (Returned demo_response)
               (Returned Ack) (Raised ex))
            0 "127.0.0.1:9094" (Some 7%Z)))
  = [{| push_token := 7%Z;
        push_message_proto :=
          {| metadata := "run 1: node 0 -> node 7";
             content := None;
             error :=
               Some {| code := CLIENT_APP_RAISED_EXCEPTION;
                       reason :=
                         "<class 'ValueError'>:<'invalid app reference'>" |}
          |};
        push_context_proto := demo_context |}]%list.
Proof.
  intro ex.
  apply (at_demo untouched_context_round_trip
           (demo_scenario (null_then 0 7) (Returned demo_response)
              (Returned Ack) (Raised ex))
           0 "127.0.0.1:9094" (Some 7%Z) 0 7%Z demo_response
           (create_error_reply demo_message
              {| code := CLIENT_APP_RAISED_EXCEPTION;
                 reason :=
                   "<class 'ValueError'>:<'invalid app reference'>" |})
           demo_context);
    [intro c; reflexivity | constructor | reflexivity | reflexivity
    | reflexivity].
Defined.

(** X9, witness: Ctrl-C while the second [GetToken] call is waiting. *)
Lemma interrupt_during_the_second_poll :
  let ex := {| exc_class := Known KeyboardInterrupt; exc_str := "" |} in
  demo_process
    (demo_scenario
       (fun n =>
          if Nat.ltb n 1 then Returned {| res_token := None |} else Raised ex)
       (Returned demo_response) (Returned Ack)
       (Returned (returning_app demo_output demo_context)))
    5 "127.0.0.1:9094" None
  = (Returns tt,
     ([CreateChannel "127.0.0.1:9094" true; Subscribe] ++ poll_events 2
        ++ [Log INFO "Closing connection"; ChannelClose])%list).
Proof.
  intro ex.
  apply (proj1
           (at_demo interrupt_is_orderly
              (demo_scenario
                 (fun n =>
                    if Nat.ltb n 1 then Returned {| res_token := None |}
                    else Raised ex)
                 (Returned demo_response) (Returned Ack)
                 (Returned (returning_app demo_output demo_context)))
              5 "127.0.0.1:9094" None ex eq_refl)
           1 eq_refl);
    [split; reflexivity | lia].
Defined.

(** C1, witness: every helper returns and callback resolution raises
    [ValueError]; the boundary yields the error reply and the driver
    pushes it with the context. *)
Lemma fault_boundary_converts_ValueError :
  let w :=
    demo_plain_world
      (demo_scenario (null_then 0 7) (Returned demo_response) (Returned Ack)
         (Raised {| exc_class := Known ValueError;
                    exc_str := "invalid app reference" |})) in
  exists reply_message,
    pushes (snd (demo_process' w 0 "127.0.0.1:9094" (Some 7%Z))) =
      [{| push_token := 7%Z;
          push_message_proto := reply_message;
          push_context_proto := demo_context |}]%list
    /\ error reply_message =
         Some {| code := CLIENT_APP_RAISED_EXCEPTION;
                 reason :=
                   "<class 'ValueError'>:<'invalid app reference'>" |}.
Proof.
  intro w.
  destruct (at_types fault_boundary_converts_Exception w 0 "127.0.0.1:9094"
              (Some 7%Z) 0 7%Z demo_message demo_context demo_run)
    as [reply_message [_ [Hreply Hpush]]].
  - split; [reflexivity |]. split; [reflexivity |].
    split; [constructor |].
    exists demo_response. repeat split; reflexivity.
  - intros ex Hex. injection Hex as <-.
    split; [reflexivity |]. eexists. reflexivity.
  - exists reply_message. split.
    + apply Hpush; reflexivity.
    + destruct Hreply as [Hret | [ex [text [Hex [Htext ->]]]]];
        [discriminate Hret |].
      injection Hex as <-. injection Htext as <-. reflexivity.
Defined.

(** C10, counterexample.  The callback raises [ZeroDivisionError], an
    [Exception]: when its [__str__] raises, or when the error reply does
    not convert to the wire, nothing is pushed and the new exception
    leaves [run_clientapp].  And after a [KeyboardInterrupt] out of the
    callback the close is not all that runs: the outer clause logs
    "Closing connection" first. *)
Lemma Exception_without_reply_and_interrupt_logged :
  let failed_str :=
    {| exc_class := Derived "RuntimeError" [Known Exception];
       exc_str := "__str__ failed" |} in
  let not_encodable :=
    {| exc_class := Derived "UnicodeEncodeError" [Known ValueError];
       exc_str := "surrogates not allowed" |} in
  let ex :=
    {| exc_class := Known ZeroDivisionError;
       exc_str := "division by zero" |} in
  let interrupt := {| exc_class := Known KeyboardInterrupt; exc_str := "" |} in
  let env raised :=
    demo_scenario (null_then 0 7) (Returned demo_response) (Returned Ack)
      (Returned (raising_app raised demo_context)) in
  isinstance ex Exception = true
  /\ demo_process'
       (demo_world_with (env ex) (fun _ => Raised failed_str)
          (fun m => Returned m))
       0 "127.0.0.1:9094" (Some 7%Z)
     = (Raises failed_str,
        [CreateChannel "127.0.0.1:9094" true; Subscribe;
         CallPullClientAppInputs {| pull_token := 7%Z |};
         ChannelClose]%list)
  /\ demo_process'
       (demo_world_with (env ex) (fun e => Returned (str e))
          (fun _ => Raised not_encodable))
       0 "127.0.0.1:9094" (Some 7%Z)
     = (Raises not_encodable,
        [CreateChannel "127.0.0.1:9094" true; Subscribe;
         CallPullClientAppInputs {| pull_token := 7%Z |};
         Log ERROR "ClientApp raised an exception";
         ChannelClose]%list)
  /\ demo_process' (demo_plain_world (env interrupt))
       0 "127.0.0.1:9094" (Some 7%Z)
     = (Returns tt,
        [CreateChannel "127.0.0.1:9094" true; Subscribe;
         CallPullClientAppInputs {| pull_token := 7%Z |};
         Log INFO "Closing connection";
         ChannelClose]%list).
Proof. repeat split; reflexivity. Qed.

(** C10, witness: the callback raises [SystemExit]; it leaves the
    boundary and the run, nothing is pushed, the channel is closed. *)
Lemma SystemExit_leaves_the_boundary :
  let ex := {| exc_class := Known SystemExit; exc_str := "1" |} in
  let w :=
    demo_plain_world
      (demo_scenario (null_then 0 7) (Returned demo_response) (Returned Ack)
         (Returned (raising_app ex demo_context))) in
  pushes (snd (demo_process' w 0 "127.0.0.1:9094" (Some 7%Z))) = []%list
  /\ demo_process' w 0 "127.0.0.1:9094" (Some 7%Z) =
       (Raises ex,
        [CreateChannel "127.0.0.1:9094" true; Subscribe;
         CallPullClientAppInputs {| pull_token := 7%Z |};
         ChannelClose]%list).
Proof.
  intros ex w.
  destruct (at_types boundary_catches_Exception_only w 0 "127.0.0.1:9094"
              (Some 7%Z) 0 7%Z demo_message demo_context demo_run ex)
    as [_ Hescape].
  - split; [reflexivity |]. split; [reflexivity |].
    split; [constructor |].
    exists demo_response. repeat split; reflexivity.
  - reflexivity.
  - destruct (Hescape eq_refl) as [_ [Hpush Hrun]].
    split; [exact Hpush | exact (Hrun eq_refl)].
Defined.

(** X2, witness: two empty answers, token 42, every helper returns. *)
Lemma acknowledged_run_after_two_polls :
  let w :=
    demo_plain_world
      (demo_scenario (null_then 2 42) (Returned demo_response) (Returned Ack)
         (Returned (returning_app demo_output ["round 3"; "trained"]%list)))
  in
  fst (demo_process' w 5 "127.0.0.1:9094" None) = Returns tt
  /\ operations (snd (demo_process' w 5 "127.0.0.1:9094" None)) =
       [CreateChannel "127.0.0.1:9094" true; Subscribe;
        CallGetToken; CallGetToken; CallGetToken;
        CallPullClientAppInputs {| pull_token := 42%Z |};
        CallPushClientAppOutputs
          {| push_token := 42%Z;
             push_message_proto := demo_output;
             push_context_proto := ["round 3"; "trained"]%list |};
        ChannelClose]%list.
Proof.
  intro w.
  apply (at_types acknowledged_run w 5 "127.0.0.1:9094" None 3 42%Z
           demo_message demo_context demo_run
           (returning_app demo_output ["round 3"; "trained"]%list)
           demo_output demo_output ["round 3"; "trained"]%list Ack);
    try reflexivity.
  split; [reflexivity |]. split; [reflexivity |].
  split; [apply (Polled _ _ 2 42%Z); [reflexivity | lia] |].
  exists demo_response. repeat split; reflexivity.
Defined.
